(** * Filtering, query building and pagination of the SQLAlchemy connection fields

    A shallow embedding of [abc_graphene_sqlalchemy/fields.py]: the filter
    compiler ([create_filter_clause], [where_clause]), the query builders
    ([get_query] of the base and of the filtered connection field) and the
    connection resolution ([resolve_connection], [connection_resolver]).

    Python dictionaries keep their insertion order and are iterated in it,
    so a mapping is an association list.  Exceptions are the [Err] case of
    [result].  SQLAlchemy expressions are syntax trees, as they are in the
    library; queries are immutable records (every [Query] method returns a
    new query). *)

From Stdlib Require Import ZArith Ascii String List Bool Lia.
From stdpp Require Import base strings list gmap.

Open Scope string_scope.
Open Scope Z_scope.

Set Warnings "-register-all".

(** ** Python values *)

Inductive value : Type :=
| VNone
| VBool (b : bool)
| VInt (n : Z)
| VFloat (mantissa exponent : Z)
| VStr (s : string)
| VUUID (hex : string)
| VList (xs : list value)
| VMap (items : list (string * value)).

(** [type(value)], as it is printed in the error message. *)
Inductive pytype : Type :=
| TNoneType | TBool | TInt | TFloat | TStr | TUUID | TList | TDict.

Definition type_of (v : value) : pytype :=
  match v with
  | VNone => TNoneType
  | VBool _ => TBool
  | VInt _ => TInt
  | VFloat _ _ => TFloat
  | VStr _ => TStr
  | VUUID _ => TUUID
  | VList _ => TList
  | VMap _ => TDict
  end.

(** [isinstance(value, Mapping)] *)
Definition isinstance_Mapping (v : value) : bool :=
  match v with VMap _ => true | _ => false end.

(** [isinstance(value, (str, int, UUID))]; [bool] is a subclass of [int]. *)
Definition isinstance_str_int_UUID (v : value) : bool :=
  match v with
  | VStr _ | VInt _ | VBool _ | VUUID _ => true
  | _ => false
  end.

(** ** Entities *)

(** A mapped class: its name and the names of its class attributes
    (columns and relationships). *)
Record Model : Type := mkModel {
  model_name : string;
  model_attrs : list string
}.

(** ** Exceptions *)

Inductive exn : Type :=
| ValueError                       (* failed unpacking of [value.items()] *)
| TypeError                        (* calling an object that is not callable *)
| AttributeError (name : string)
| NotImplementedError (t : pytype) (field : string) (model : Model)
| MissingFilters (missing : gset string)   (* [Exception(missing_filters)] *)
| NoResultFound
| MultipleResultsFound.

(** Whether an exception is the one raised for missing required filters. *)
Definition is_missing_filters (e : exn) : bool :=
  match e with
  | MissingFilters _ => true
  | _ => false
  end.

Inductive result (A : Type) : Type :=
| Ok (a : A)
| Err (e : exn).
Arguments Ok {A} a.
Arguments Err {A} e.

Definition bind {A B : Type} (r : result A) (k : A -> result B) : result B :=
  match r with
  | Ok a => k a
  | Err e => Err e
  end.

Notation "x <- r ;; k" := (bind r (fun x => k))
  (at level 100, r at next level, right associativity).

(** ** SQL expressions *)

Inductive column : Type :=
| Column (model : string) (field : string).

Inductive cmp_op : Type := OpEq | OpNe | OpLt | OpGt.

Inductive atom : Type :=
| Compare (op : cmp_op) (col : column) (v : value)
| LowerLike (col : column) (v : value)  (* lower(col) LIKE lower('%' || v || '%') *)
| InList (col : column) (v : value).

Inductive boolop : Type := And | Or.

Inductive clause : Type :=
| Atom (a : atom)
| BoolList (op : boolop) (args : list clause)
| Grouping (c : clause).

(** [and_] and [or_] of SQLAlchemy.  Called with no argument they give
    an empty clause list; called with two clauses that are not the constants
    true and false they give the list of the two. *)
Definition and_ (clauses : list clause) : clause := BoolList And clauses.
Definition or_ (clauses : list clause) : clause := BoolList Or clauses.

Definition apply_operator (operator : boolop) (clauses : list clause) : clause :=
  match operator with
  | And => and_ clauses
  | Or => or_ clauses
  end.

(** [clauses.self_group()]: an empty boolean clause list is returned as it
    is, anything else is wrapped in a grouping. *)
Definition self_group (c : clause) : clause :=
  match c with
  | BoolList _ [] => c
  | _ => Grouping c
  end.

(** [getattr(model, field)] *)
Definition getattr (model : Model) (field : string) : result column :=
  if existsb (String.eqb field) (model_attrs model)
  then Ok (Column (model_name model) field)
  else Err (AttributeError field).

(** ** Meaning of a compiled predicate on a row

    The compiler of SQLAlchemy joins the rendered elements of a clause list
    with the operator and leaves out the elements that render to nothing, so
    an empty clause list contributes nothing to the list around it: [None]
    below.  The predicates built here contain no negation above the atoms,
    so the rows a predicate selects are determined by which atoms hold. *)

Definition merge (op : boolop) (x y : option bool) : option bool :=
  match x, y with
  | Some a, Some b => Some (match op with And => a && b | Or => a || b end)
  | Some a, None => Some a
  | None, _ => y
  end.

Definition join (op : boolop) (l : list (option bool)) : option bool :=
  foldr (merge op) None l.

Section Eval.
Context {Row : Type}.
Variable holds : Row -> atom -> bool.
Variable row : Row.

Fixpoint eval (c : clause) : option bool :=
  match c with
  | Atom a => Some (holds row a)
  | BoolList op args => join op (List.map eval args)
  | Grouping c' => eval c'
  end.

(** A row is selected unless the predicate is false on it. *)
Definition selects (c : clause) : bool :=
  match eval c with
  | Some b => b
  | None => true
  end.
End Eval.

(** ** The filter compiler *)

(** What [create_filter_clause] returns: the initial empty tuple [()] or a
    [lambda] without arguments, given by what calling it returns. *)
Inductive filter_clause : Type :=
| EmptyTuple
| Lambda (body : result clause).

(** [clause()] *)
Definition call (f : filter_clause) : result clause :=
  match f with
  | EmptyTuple => Err TypeError
  | Lambda body => body
  end.

(** [[(operator, value)] = value.items()] *)
Definition unpack_single (items : list (string * value)) : result (string * value) :=
  match items with
  | [item] => Ok item
  | _ => Err ValueError
  end.

Definition compare (op : cmp_op) (model : Model) (field : string) (v : value)
  : result clause :=
  col <- getattr model field ;; Ok (Atom (Compare op col v)).

Definition create_filter_clause (model : Model) (field : string) (value0 : value)
  : result filter_clause :=
  let clause := EmptyTuple in
  match value0 with
  | VMap items =>
      item <- unpack_single items ;;
      let '(operator, value) := item in
      if String.eqb operator "equal" then
        Ok (Lambda (compare OpEq model field value))
      else if String.eqb operator "notEqual" then
        Ok (Lambda (compare OpNe model field value))
      else if String.eqb operator "lessThan" then
        Ok (Lambda (compare OpLt model field value))
      else if String.eqb operator "greaterThan" then
        Ok (Lambda (compare OpGt model field value))
      else if String.eqb operator "like" then
        Ok (Lambda (col <- getattr model field ;; Ok (Atom (LowerLike col value))))
      else if String.eqb operator "in" then
        Ok (Lambda (col <- getattr model field ;; Ok (Atom (InList col value))))
      else Ok clause
  | _ =>
      if isinstance_str_int_UUID value0 then
        Ok (Lambda (compare OpEq model field value0))
      else
        Err (NotImplementedError (type_of value0) field model)
  end.

(** [where_clause(model, filter, operator)].  The recursion is on the nested
    mappings of the filter; the inner loop is the [for] over
    [filter.items()], with [clauses] as its accumulator. *)
Fixpoint where_value (model : Model) (operator : boolop) (filter : value)
  {struct filter} : result clause :=
  match filter with
  | VMap items =>
      (fix loop (items : list (string * value)) (clauses : clause)
         {struct items} : result clause :=
         match items with
         | [] => Ok (self_group clauses)
         | (filter_name, filter_value) :: rest =>
             if String.eqb filter_name "or" && isinstance_Mapping filter_value then
               sub <- where_value model Or filter_value ;;
               loop rest (apply_operator operator [clauses; sub])
             else if String.eqb filter_name "and" && isinstance_Mapping filter_value then
               sub <- where_value model And filter_value ;;
               loop rest (apply_operator operator [clauses; sub])
             else
               sub <- (f <- create_filter_clause model filter_name filter_value ;; call f) ;;
               loop rest (apply_operator operator [clauses; sub])
         end) items (apply_operator operator [])
  | _ => Err (AttributeError "items")
  end.

Definition where_clause (model : Model) (filter : list (string * value))
  (operator : boolop) : result clause :=
  where_value model operator (VMap filter).

(** The predicate one key of a filter node contributes. *)
Definition key_clause (model : Model) (filter_name : string) (filter_value : value)
  : result clause :=
  if String.eqb filter_name "or" && isinstance_Mapping filter_value then
    where_value model Or filter_value
  else if String.eqb filter_name "and" && isinstance_Mapping filter_value then
    where_value model And filter_value
  else
    f <- create_filter_clause model filter_name filter_value ;; call f.

(** The [for] loop of [where_clause] from a given accumulator. *)
Fixpoint where_loop (model : Model) (operator : boolop)
  (items : list (string * value)) (clauses : clause) : result clause :=
  match items with
  | [] => Ok (self_group clauses)
  | (filter_name, filter_value) :: rest =>
      sub <- key_clause model filter_name filter_value ;;
      where_loop model operator rest (apply_operator operator [clauses; sub])
  end.

(** The predicates of the keys of a node, in the order of the keys. *)
Fixpoint key_clauses (model : Model) (items : list (string * value))
  : result (list clause) :=
  match items with
  | [] => Ok []
  | (filter_name, filter_value) :: rest =>
      sub <- key_clause model filter_name filter_value ;;
      subs <- key_clauses model rest ;;
      Ok (sub :: subs)
  end.

(** ** Queries *)

(** An ordering expression, the [value] of a sort enum member. *)
Inductive direction : Type := Asc | Desc.

Inductive order_expr : Type :=
| OrderBy (col : column) (dir : direction).

(** [EnumValue(str_value, value)] of [utils]: a string that carries the
    ordering expression as its [value] attribute. *)
Record EnumValue : Type := mkEnumValue {
  str_value : string;
  enum_value : order_expr
}.

(** The [sort] argument: one enum value or a sequence of them. *)
Inductive sort_arg : Type :=
| SortEnum (e : EnumValue)
| SortSeq (cols : list EnumValue).

Inductive criterion : Type :=
| Where (c : clause)                           (* [Query.filter(clause)] *)
| WhereRelated (col : column) (related : value) (* [Query.filter(column == row)] *)
| WhereBy (kw : list (string * value)).        (* [Query.filter_by] with keywords [kw] *)

Record Query : Type := mkQuery {
  entity : Model;
  session : string;
  criteria : list criterion;
  ordering : list order_expr
}.

Definition add_criterion (query : Query) (c : criterion) : Query :=
  mkQuery (entity query) (session query)
          (criteria query ++ [c]) (ordering query).

Definition query_filter (query : Query) (c : clause) : Query :=
  add_criterion query (Where c).

Definition query_filter_by (query : Query) (kw : list (string * value)) : Query :=
  add_criterion query (WhereBy kw).

Definition query_order_by (query : Query) (cols : list order_expr) : Query :=
  mkQuery (entity query) (session query)
          (criteria query) (ordering query ++ cols).

(** What [Query.one()] finds. *)
Inductive one_result : Type :=
| OneRow (r : value)
| NoRow
| ManyRows.

(** The session and the database behind it.  [session_query] is
    [utils.get_query(model, context)], the base query of an entity in the
    session of the request; the other three execute a query. *)
Record Store : Type := mkStore {
  session_query : Model -> string -> Query;
  query_count : Query -> Z;               (* [Query.count()] *)
  query_all : Query -> list value;        (* the rows, in the order of the query *)
  query_one : Query -> one_result         (* [Query.one()] *)
}.

Definition one (store : Store) (q : Query) : result value :=
  match query_one store q with
  | OneRow r => Ok r
  | NoRow => Err NoResultFound
  | ManyRows => Err MultipleResultsFound
  end.

(** [filter_query(query, model, field, value)]: the same dispatch as
    [create_filter_clause], applied to a query at once. *)
Definition filter_query (query : Query) (model : Model) (field : string)
  (value0 : value) : result Query :=
  match value0 with
  | VMap items =>
      item <- unpack_single items ;;
      let '(operator, value) := item in
      if String.eqb operator "equal" then
        c <- compare OpEq model field value ;; Ok (query_filter query c)
      else if String.eqb operator "notEqual" then
        c <- compare OpNe model field value ;; Ok (query_filter query c)
      else if String.eqb operator "lessThan" then
        c <- compare OpLt model field value ;; Ok (query_filter query c)
      else if String.eqb operator "greaterThan" then
        c <- compare OpGt model field value ;; Ok (query_filter query c)
      else if String.eqb operator "like" then
        col <- getattr model field ;;
        Ok (query_filter query (Atom (LowerLike col value)))
      else if String.eqb operator "in" then
        col <- getattr model field ;;
        Ok (query_filter query (Atom (InList col value)))
      else Ok query
  | _ =>
      if isinstance_str_int_UUID value0 then
        c <- compare OpEq model field value0 ;; Ok (query_filter query c)
      else
        Err (NotImplementedError (type_of value0) field model)
  end.

(** ** Arguments of a resolution call *)

(** An instance of [SQLAlchemyInputObjectType]: a mapping with the model it
    filters. *)
Record SQLAlchemyInputObjectType : Type := mkInput {
  sqla_model : Model;
  input_items : list (string * value)
}.

(** A cursor is an opaque string; it either decodes to an offset or does
    not. *)
Inductive cursor : Type :=
| OffsetCursor (offset : Z)
| OpaqueCursor (s : string).

Inductive argvalue : Type :=
| AValue (v : value)
| ASort (s : sort_arg)
| AInput (i : SQLAlchemyInputObjectType)
| ACursor (c : cursor).

(** [args.get(name)] *)
Fixpoint args_get (args : list (string * argvalue)) (name : string)
  : option argvalue :=
  match args with
  | [] => None
  | (k, v) :: rest => if String.eqb k name then Some v else args_get rest name
  end.

(** [args] without the keys a signature names: what [kwargs] receives. *)
Definition args_without (names : list string) (args : list (string * argvalue))
  : list (string * argvalue) :=
  List.filter (fun kv => negb (existsb (String.eqb (fst kv)) names)) args.

(** The [sort] keyword as the base [get_query] reads it.  [None] is no
    sort; an enum value or a sequence of enum values is a sort; any other
    object is not an [EnumValue], so it is iterated and [value] is read
    from each element: an object that cannot be iterated raises
    [TypeError], an element without [value] raises [AttributeError], and
    an iterable without elements is an empty sequence. *)
Definition args_sort (args : list (string * argvalue)) : result (option sort_arg) :=
  match args_get args "sort" with
  | None => Ok None
  | Some (ASort s) => Ok (Some s)
  | Some (AValue VNone) => Ok None
  | Some (AValue (VStr s)) =>
      if String.eqb s "" then Ok (Some (SortSeq []))
      else Err (AttributeError "value")
  | Some (AValue (VList [])) | Some (AValue (VMap [])) => Ok (Some (SortSeq []))
  | Some (AValue (VList _)) | Some (AValue (VMap _)) => Err (AttributeError "value")
  | Some (AValue _) => Err TypeError
  | Some (AInput i) =>
      match input_items i with
      | [] => Ok (Some (SortSeq []))
      | _ => Err (AttributeError "value")
      end
  | Some (ACursor (OffsetCursor _)) => Err (AttributeError "value")
  | Some (ACursor (OpaqueCursor s)) =>
      if String.eqb s "" then Ok (Some (SortSeq []))
      else Err (AttributeError "value")
  end.

Definition args_where (args : list (string * argvalue)) : option value :=
  match args_get args "where" with
  | Some (AValue v) => Some v
  | _ => None
  end.

(** Truth value of a Python object in a condition. *)
Definition truthy (v : value) : bool :=
  match v with
  | VNone => false
  | VBool b => b
  | VInt n => negb (n =? 0)
  | VFloat m _ => negb (m =? 0)
  | VStr s => negb (String.eqb s "")
  | VUUID _ => true
  | VList xs => negb (Nat.eqb (List.length xs) 0)
  | VMap items => negb (Nat.eqb (List.length items) 0)
  end.

Record RequiredFilter : Type := mkRequired { key : string }.

(** A field of the query type of the schema; [required] is the attribute
    of that name when the field has one. *)
Record SchemaField : Type := mkField {
  required : option (list RequiredFilter)
}.

(** [ResolveInfo]: [snake_field_name] is [to_snake_case(info.field_name)],
    [schema_query] the attributes of [info.schema._query] ([None] for an
    attribute that is set to [None]). *)
Record ResolveInfo : Type := mkInfo {
  context : string;
  snake_field_name : string;
  schema_query : list (string * option SchemaField)
}.

(** ** Pagination *)

(** [l[start:stop]] of Python: a negative index counts from the end, and
    both ends are clamped to the list. *)
Definition slice_index (len i : Z) : Z :=
  if i <? 0 then Z.max 0 (len + i) else Z.min i len.

Definition py_slice {A : Type} (l : list A) (start stop : Z) : list A :=
  let len := Z.of_nat (List.length l) in
  let lo := slice_index len start in
  let hi := slice_index len stop in
  take (Z.to_nat (hi - lo)) (drop (Z.to_nat lo) l).

Record Edge : Type := mkEdge {
  node : value;
  edge_cursor : cursor
}.

Record PageInfo : Type := mkPageInfo {
  start_cursor : option cursor;
  end_cursor : option cursor;
  has_previous_page : bool;
  has_next_page : bool
}.

(** What a resolver hands over, other than [None]. *)
Inductive iterable_value : Type :=
| IQuery (q : Query)
| IList (l : list value)
| ISet (elements : list value).   (* in the iteration order of the set *)

Module Connection.
Record t : Type := mk {
  edges : list Edge;
  page_info : PageInfo;
  iterable : iterable_value;
  length : Z
}.
End Connection.

Definition offset_to_cursor (offset : Z) : cursor := OffsetCursor offset.

Definition get_offset_with_default (c : option argvalue) (default : Z) : Z :=
  match c with
  | Some (ACursor (OffsetCursor offset)) => offset
  | _ => default
  end.

(** [isinstance(x, int)] and the integer then. *)
Definition as_int (x : option argvalue) : option Z :=
  match x with
  | Some (AValue (VInt n)) => Some n
  | Some (AValue (VBool b)) => Some (if b then 1 else 0)
  | _ => None
  end.

Definition arg_truthy (x : option argvalue) : bool :=
  match x with
  | None => false
  | Some (AValue v) => truthy v
  | Some (ACursor (OpaqueCursor s)) => negb (String.eqb s "")
  | Some _ => true
  end.

(** [edges[0].cursor if edges else None] and [edges[-1].cursor if edges else None] *)
Definition first_edge_cursor (edges : list Edge) : option cursor :=
  edge_cursor <$> head edges.
Definition last_edge_cursor (edges : list Edge) : option cursor :=
  edge_cursor <$> last edges.

(** Modelled from the spec: [connection_from_list_slice] of the
    cursor-connection library is not part of the sources.  It decodes the
    [after] and [before] cursors to offsets, applies [first] and [last] as
    bounded counts, slices, gives every edge the cursor of its offset in the
    full collection, and derives the two page flags from whether the slice
    bounds reach the ends of the collection. *)
Definition connection_from_list_slice (list_slice : list value)
  (args : list (string * argvalue))
  (slice_start list_length list_slice_length : Z) : list Edge * PageInfo :=
  let before := args_get args "before" in
  let after := args_get args "after" in
  let first := as_int (args_get args "first") in
  let last := as_int (args_get args "last") in
  let slice_end := slice_start + list_slice_length in
  let before_offset := get_offset_with_default before list_length in
  let after_offset := get_offset_with_default after (-1) in
  let start_offset := Z.max (Z.max (slice_start - 1) after_offset) (-1) + 1 in
  let end_offset := Z.min (Z.min slice_end before_offset) list_length in
  let end_offset :=
    match first with
    | Some k => Z.min end_offset (start_offset + k)
    | None => end_offset
    end in
  let start_offset :=
    match last with
    | Some k => Z.max start_offset (end_offset - k)
    | None => start_offset
    end in
  let _slice :=
    py_slice list_slice
      (Z.max (start_offset - slice_start) 0)
      (list_slice_length - (slice_end - end_offset)) in
  let edges :=
    imap (fun i nd => mkEdge nd (offset_to_cursor (start_offset + Z.of_nat i)))
         _slice in
  let lower_bound := if arg_truthy after then after_offset + 1 else 0 in
  let upper_bound := if arg_truthy before then before_offset else list_length in
  (edges,
   mkPageInfo (first_edge_cursor edges) (last_edge_cursor edges)
     (match last with Some _ => lower_bound <? start_offset | None => false end)
     (match first with Some _ => end_offset <? upper_bound | None => false end)).

(** ** Connection fields *)

(** [cls.get_query(model, info, **args)]: the query builder of the class a
    class method was called on. *)
Definition query_builder : Type :=
  Store -> Model -> ResolveInfo -> list (string * argvalue) -> result Query.

(** What a parent resolver returns: a value or a thenable of one. *)
Inductive resolver_result : Type :=
| Plain (resolved : option iterable_value)
| Thenable (resolved : option iterable_value).

(** What [connection_resolver] returns: the connection, or the promise of
    what [on_resolve] gives once the thenable has its value. *)
Inductive resolution : Type :=
| Resolved (connection : Connection.t)
| Promise (later : result Connection.t).

Module UnsortedSQLAlchemyConnectionField.

Definition get_query (store : Store) (model : Model) (info : ResolveInfo)
  (sort : option sort_arg) (args : list (string * argvalue)) : Query :=
  let query := session_query store model (context info) in
  match sort with
  | Some (SortEnum e) => query_order_by query [enum_value e]
  | Some (SortSeq cols) => query_order_by query (List.map enum_value cols)
  | None => query
  end.

(** [get_query] called with the arguments as keywords. *)
Definition get_query_kw : query_builder :=
  fun store model info args =>
    sort <- args_sort args ;;
    Ok (get_query store model info sort (args_without ["sort"] args)).

Definition resolve_connection (cls_get_query : query_builder) (store : Store)
  (connection_type : string) (model : Model) (info : ResolveInfo)
  (args : list (string * argvalue)) (resolved : option iterable_value)
  : result Connection.t :=
  resolved <- match resolved with
              | None => q <- cls_get_query store model info args ;; Ok (IQuery q)
              | Some r => Ok r
              end ;;
  let _len :=
    match resolved with
    | IQuery q => query_count store q
    | IList l => Z.of_nat (List.length l)
    | ISet elements => Z.of_nat (List.length elements)
    end in
  let resolved :=
    match resolved with
    | ISet elements => IList elements
    | _ => resolved
    end in
  let list_slice :=
    match resolved with
    | IQuery q => query_all store q
    | IList l => l
    | ISet elements => elements
    end in
  let connection := connection_from_list_slice list_slice args 0 _len _len in
  Ok (Connection.mk (fst connection) (snd connection) resolved _len).

Definition connection_resolver
  (cls_resolve_connection :
     Store -> string -> Model -> ResolveInfo -> list (string * argvalue) ->
     option iterable_value -> result Connection.t)
  (store : Store)
  (resolver : value -> ResolveInfo -> list (string * argvalue) -> result resolver_result)
  (connection_type : string) (model : Model) (root : value)
  (info : ResolveInfo) (args : list (string * argvalue)) : result resolution :=
  resolved <- resolver root info args ;;
  let on_resolve := cls_resolve_connection store connection_type model info args in
  match resolved with
  | Thenable resolved => Ok (Promise (on_resolve resolved))
  | Plain resolved => connection <- on_resolve resolved ;; Ok (Resolved connection)
  end.

End UnsortedSQLAlchemyConnectionField.

(** [getattr(model, filter_name, None)] *)
Definition getattr_default (model : Model) (name : string) : option column :=
  match getattr model name with
  | Ok col => Some col
  | Err _ => None
  end.

(** [getattr(info.schema._query, to_snake_case(info.field_name))] *)
Fixpoint schema_getattr (attrs : list (string * option SchemaField)) (name : string)
  : result (option SchemaField) :=
  match attrs with
  | [] => Err (AttributeError name)
  | (k, f) :: rest => if String.eqb k name then Ok f else schema_getattr rest name
  end.

(** [filters.keys()] for [filters = args.get("filter", {})] *)
Definition filter_keys (filters : option argvalue) : result (list string) :=
  match filters with
  | None => Ok []
  | Some (AValue (VMap items)) => Ok (List.map fst items)
  | Some (AInput i) => Ok (List.map fst (input_items i))
  | Some _ => Err (AttributeError "keys")
  end.

Module SQLAlchemyFilteredConnectionField.

(** The [for] loop over [kwargs.items()].  The query made by
    [query.filter(...)] in its body is not bound to a name: [query] stays
    what it was. *)
Fixpoint related_filters (store : Store) (model : Model) (info : ResolveInfo)
  (kwargs items : list (string * argvalue)) (query : Query) : result Query :=
  match items with
  | [] => Ok query
  | (filter_name, filter_value) :: rest =>
      match getattr_default model filter_name with
      | None => related_filters store model info kwargs rest query
      | Some model_filter_column =>
          match filter_value with
          | AInput filter_value =>
              let filter_model := sqla_model filter_value in
              let q := UnsortedSQLAlchemyConnectionField.get_query
                         store filter_model info None kwargs in
              related <- one store (query_filter_by q (input_items filter_value)) ;;
              let _ := add_criterion query
                         (WhereRelated model_filter_column related) in
              related_filters store model info kwargs rest query
          | _ => related_filters store model info kwargs rest query
          end
      end
  end.

Definition get_query (store : Store) (model : Model) (info : ResolveInfo)
  (where_ : option value) (sort : option argvalue)
  (kwargs : list (string * argvalue)) : result Query :=
  let query := UnsortedSQLAlchemyConnectionField.get_query
                 store model info None kwargs in
  query <- related_filters store model info kwargs kwargs query ;;
  match where_ with
  | Some w =>
      if truthy w then
        clause <- where_value model And w ;;
        Ok (query_filter query clause)
      else Ok query
  | None => Ok query
  end.

(** [get_query] called with the arguments as keywords. *)
Definition get_query_kw : query_builder :=
  fun store model info args =>
    get_query store model info (args_where args) (args_get args "sort")
      (args_without ["where"; "sort"; "group_by"; "order_by"] args).

Definition resolve_connection (store : Store) (connection_type : string)
  (model : Model) (info : ResolveInfo) (args : list (string * argvalue))
  (resolved : option iterable_value) : result Connection.t :=
  let filters := args_get args "filter" in
  field <- schema_getattr (schema_query info) (snake_field_name info) ;;
  _ <- match field with
       | Some field =>
           match required field with
           | Some (rf :: rfs) =>
               let required_filters := List.map key (rf :: rfs) in
               keys <- filter_keys filters ;;
               let missing_filters : gset string :=
                 list_to_set required_filters ∖ list_to_set keys in
               if decide (missing_filters = ∅) then Ok tt
               else Err (MissingFilters missing_filters)
           | _ => Ok tt
           end
       | None => Ok tt
       end ;;
  UnsortedSQLAlchemyConnectionField.resolve_connection get_query_kw
    store connection_type model info args resolved.

End SQLAlchemyFilteredConnectionField.

(** ** A small schema to run the definitions on *)

Definition Article : Model :=
  mkModel "Article" ["id"; "headline"; "reporter_id"; "reporter"; "published"].

Definition Reporter : Model :=
  mkModel "Reporter" ["id"; "name"].

(** A row as the mapping of its columns; an atom [column == v] holds when
    the row has that integer or string in the column. *)
Fixpoint row_get (r : list (string * value)) (name : string) : option value :=
  match r with
  | [] => None
  | (k, v) :: rest => if String.eqb k name then Some v else row_get rest name
  end.

Definition holds_eq (r : list (string * value)) (a : atom) : bool :=
  match a with
  | Compare OpEq (Column _ f) (VInt n) =>
      match row_get r f with Some (VInt m) => m =? n | _ => false end
  | Compare OpEq (Column _ f) (VStr s) =>
      match row_get r f with Some (VStr t) => String.eqb t s | _ => false end
  | _ => false
  end.

Definition article_1 : list (string * value) :=
  [("id", VInt 1); ("headline", VStr "X"); ("reporter_id", VInt 3)].

(** A store with nothing in it. *)
Definition empty_store : Store :=
  mkStore (fun model ctx => mkQuery model ctx [] [])
          (fun _ => 0) (fun _ => []) (fun _ => NoRow).

(** A store where every [one()] finds the same reporter. *)
Definition one_reporter_store : Store :=
  mkStore (fun model ctx => mkQuery model ctx [] [])
          (fun _ => 1) (fun _ => [VInt 7]) (fun _ => OneRow (VInt 7)).

Definition headline_asc : EnumValue :=
  mkEnumValue "headline_asc" (OrderBy (Column "Article" "headline") Asc).

Definition id_desc : EnumValue :=
  mkEnumValue "id_desc" (OrderBy (Column "Article" "id") Desc).

Definition articles_info : ResolveInfo :=
  mkInfo "session" "articles"
         [("articles", Some (mkField (Some [mkRequired "reporter_id"])))].

(** ** Filters that compile *)

(** The operator tags of a leaf mapping. *)
Definition operator_tags : list string :=
  ["equal"; "notEqual"; "lessThan"; "greaterThan"; "like"; "in"].

Definition has_attr (model : Model) (field : string) : bool :=
  existsb (String.eqb field) (model_attrs model).

(** A leaf value: a scalar of one of the accepted types, or a mapping of one
    operator tag. *)
Definition leaf_value_ok (v : value) : bool :=
  match v with
  | VMap [(operator, _)] => existsb (String.eqb operator) operator_tags
  | VMap _ => false
  | _ => isinstance_str_int_UUID v
  end.

(** A filter node in which every key is a combinator over such a node or an
    attribute of the model with a leaf value. *)
Fixpoint compilable (model : Model) (filter : value) {struct filter} : bool :=
  match filter with
  | VMap items =>
      (fix all (items : list (string * value)) : bool :=
         match items with
         | [] => true
         | (filter_name, filter_value) :: rest =>
             (if String.eqb filter_name "or" && isinstance_Mapping filter_value then
                compilable model filter_value
              else if String.eqb filter_name "and" && isinstance_Mapping filter_value then
                compilable model filter_value
              else has_attr model filter_name && leaf_value_ok filter_value)
             && all rest
         end) items
  | _ => false
  end.

(** ** The filter argument of the schema *)

(** An [OrderedDict] with string keys: setting a key that is there replaces
    its value in place, a new key goes to the end. *)
Fixpoint od_set {V : Type} (d : list (string * V)) (k : string) (v : V)
  : list (string * V) :=
  match d with
  | [] => [(k, v)]
  | (k', v') :: rest =>
      if String.eqb k' k then (k', v) :: rest else (k', v') :: od_set rest k v
  end.

Fixpoint od_get {V : Type} (d : list (string * V)) (k : string) : option V :=
  match d with
  | [] => None
  | (k', v') :: rest => if String.eqb k' k then Some v' else od_get rest k
  end.

(** [OrderedDict(pairs)] and [d.update(pairs)] *)
Definition od_update {V : Type} (d pairs : list (string * V)) : list (string * V) :=
  fold_left (fun d kv => od_set d (fst kv) (snd kv)) pairs d.

(** The class of the graphene type a column converts to (the columns here
    are the ones the converter knows): [Field], [List] or another class,
    given by its [str]. *)
Inductive graphene_class : Type :=
| GField
| GList
| GOther (class_str : string).

Record SAColumn : Type := mkColumn {
  column_name : string;
  column_class : graphene_class
}.

(** A mapped class as the filter argument sees it: [cls.__name__] and
    [inspect(cls).columns.values()]. *)
Record MappedClass : Type := mkMapped {
  cls_name : string;
  cls_columns : list SAColumn
}.

(** The fields of the generated input classes.  A class is referred to by
    its name; its fields are in the cache that holds it. *)
Inductive schema_field : Type :=
| FieldOfClass (c : graphene_class)      (* [Field(graphene_type.__class__)] *)
| FieldOfList (c : graphene_class)       (* [Field(List(graphene_type.__class__))] *)
| FieldOfInput (field_class : string)    (* [Field(field_class)] *)
| ArgumentOf (argument_class : string).  (* [Argument(argument_class)] *)

(** [argument_cache] and [field_cache] *)
Record Caches : Type := mkCaches {
  argument_cache : gmap string (list (string * schema_field));
  field_cache : gmap string (list (string * schema_field))
}.

Definition is_name_start (c : ascii) : bool :=
  let n := nat_of_ascii c in
  (Nat.eqb n 95 || (Nat.leb 65 n && Nat.leb n 90) || (Nat.leb 97 n && Nat.leb n 122))%bool.

Definition is_name_char (c : ascii) : bool :=
  let n := nat_of_ascii c in
  (is_name_start c || (Nat.leb 48 n && Nat.leb n 57))%bool.

(** [[_a-zA-Z0-9]*$]: the end of the pattern also matches before a newline
    that ends the string. *)
Fixpoint name_rest_match (s : string) : bool :=
  match s with
  | EmptyString => true
  | String c rest =>
      (is_name_char c && name_rest_match rest)
      || (Nat.eqb (nat_of_ascii c) 10 && String.eqb rest "")
  end.

(** [COMPILED_NAME_PATTERN.match(name)] *)
Definition name_pattern_match (s : string) : bool :=
  match s with
  | EmptyString => false
  | String c rest => is_name_start c && name_rest_match rest
  end.

Definition create_filter_field (field_cache : gmap string (list (string * schema_field)))
  (column : SAColumn)
  : option schema_field * gmap string (list (string * schema_field)) :=
  match column_class column with
  | GField | GList => (None, field_cache)
  | GOther class_str =>
      let name := class_str ++ "Filter" in
      match field_cache !! name with
      | Some _ => (Some (FieldOfInput name), field_cache)
      | None =>
          let fields :=
            od_update []
              (List.map (fun key => (key, FieldOfClass (column_class column)))
                 ["equal"; "notEqual"; "lessThan"; "greaterThan"; "like"]) in
          let fields := od_set fields "in" (FieldOfList (column_class column)) in
          let field_class := od_update [] fields in
          (Some (FieldOfInput name), <[name := field_class]> field_cache)
      end
  end.

(** [[(column, create_filter_field(column)) for column in columns]]: every
    column is converted, in order, before any is left out. *)
Fixpoint create_filter_fields (field_cache : gmap string (list (string * schema_field)))
  (columns : list SAColumn)
  : list (SAColumn * option schema_field) * gmap string (list (string * schema_field)) :=
  match columns with
  | [] => ([], field_cache)
  | column :: rest =>
      let '(field, field_cache) := create_filter_field field_cache column in
      let '(pairs, field_cache) := create_filter_fields field_cache rest in
      ((column, field) :: pairs, field_cache)
  end.

(** The pairs the [OrderedDict] of the argument is made of: the columns with
    a filter field and a name that matches the pattern. *)
Definition kept_fields (pairs : list (SAColumn * option schema_field))
  : list (string * schema_field) :=
  omap (fun cf =>
          match snd cf with
          | Some field =>
              if name_pattern_match (column_name (fst cf))
              then Some (column_name (fst cf), field) else None
          | None => None
          end) pairs.

Definition create_filter_argument (caches : Caches) (cls : MappedClass)
  : schema_field * Caches :=
  let name := cls_name cls ++ "Filter" in
  match argument_cache caches !! name with
  | Some _ => (ArgumentOf name, caches)
  | None =>
      let '(pairs, field_cache) :=
        create_filter_fields (field_cache caches) (cls_columns cls) in
      let fields := od_update [] (kept_fields pairs) in
      let argument_class := od_update [] fields in
      let argument_class := od_set argument_class "or" (ArgumentOf name) in
      let argument_class := od_set argument_class "and" (ArgumentOf name) in
      (ArgumentOf name,
       mkCaches (<[name := argument_class]> (argument_cache caches)) field_cache)
  end.

(** ** The constructor of the sorted connection field *)

(** A keyword argument of the constructor: [None] or something else. *)
Inductive kwarg : Type :=
| KwNone
| KwObject (description : string).

(** The [type] argument, a class: its name, whether it is a subclass of
    [Connection], and what [type.Edge.node._type.sort_argument()] does. *)
Record FieldType : Type := mkFieldType {
  type_name : string;
  is_connection : bool;
  sort_argument : result kwarg
}.

Inductive init_error : Type :=
| CannotCreateSort (name : string)   (* the [TypeError] that names the type *)
| Raised (e : exn).                  (* any other exception, as it was raised *)

Module SQLAlchemyConnectionField.

(** [__init__]: the keyword arguments handed to the constructor of the base
    class, or the exception. *)
Definition init (type : FieldType) (kwargs : gmap string kwarg)
  : init_error + gmap string kwarg :=
  match kwargs !! "sort" with
  | None =>
      if is_connection type then
        match sort_argument type with
        | Ok sort => inr (<["sort" := sort]> kwargs)
        | Err (AttributeError _) | Err TypeError => inl (CannotCreateSort (type_name type))
        | Err e => inl (Raised e)
        end
      else inr kwargs
  | Some KwNone => inr (delete "sort" kwargs)
  | Some _ => inr kwargs
  end.

End SQLAlchemyConnectionField.

(** ** The registry *)

(** A graphene type handed to the registry: the object itself ([type_id]),
    whether it is a class, which of the three bases it is a subclass of, and
    the model and the registry of its [_meta]. *)
Record GrapheneType : Type := mkType {
  type_id : nat;
  is_class : bool;
  is_object_type : bool;         (* subclass of [SQLAlchemyObjectType] *)
  is_interface : bool;           (* subclass of [SQLAlchemyInterface] *)
  is_input_object_type : bool;   (* subclass of [SQLAlchemyInputObjectType] *)
  meta_model : string;
  meta_registry : nat
}.

Global Instance GrapheneType_eq_dec : EqDecision GrapheneType.
Proof. solve_decision. Defined.

Inductive registry_error : Type :=
| RegistryTypeError
| AssertionError.

(** A [Registry] object: [registry_id] is the object, the maps are its
    dictionaries. *)
Record Registry : Type := mkRegistry {
  registry_id : nat;
  _registry : gmap string GrapheneType;
  _registry_orm_fields : gmap nat (gmap string string)
}.

(** [Registry()] *)
Definition new_registry (id : nat) : Registry := mkRegistry id ∅ ∅.

Definition get_type_for_model (self : Registry) (model : string)
  : option GrapheneType :=
  _registry self !! model.

Definition register (self : Registry) (obj_type : GrapheneType)
  : registry_error + Registry :=
  if negb (is_class obj_type)
     || negb (is_object_type obj_type || is_interface obj_type) then
    inl RegistryTypeError
  else if negb (Nat.eqb (meta_registry obj_type) (registry_id self)) then
    inl AssertionError
  else
    match get_type_for_model self (meta_model obj_type) with
    | Some other =>
        if decide (other = obj_type) then
          inr (mkRegistry (registry_id self)
                 (<[meta_model obj_type := obj_type]> (_registry self))
                 (_registry_orm_fields self))
        else inl AssertionError
    | None =>
        inr (mkRegistry (registry_id self)
               (<[meta_model obj_type := obj_type]> (_registry self))
               (_registry_orm_fields self))
    end.

(** [field_name] is any Python value: it has to be a string that is not
    empty. *)
Definition register_orm_field (self : Registry) (obj_type : GrapheneType)
  (field_name : value) (orm_field : string) (assert_type : bool)
  : registry_error + Registry :=
  if assert_type
     && (negb (is_class obj_type)
         || negb (is_object_type obj_type || is_interface obj_type
                  || is_input_object_type obj_type)) then
    inl RegistryTypeError
  else
    match field_name with
    | VStr name =>
        if String.eqb name "" then inl RegistryTypeError
        else
          inr (mkRegistry (registry_id self) (_registry self)
                 (<[type_id obj_type :=
                      <[name := orm_field]>
                        (default ∅ (_registry_orm_fields self !! type_id obj_type))]>
                    (_registry_orm_fields self)))
    | _ => inl RegistryTypeError
    end.

Definition get_orm_field_for_graphene_field (self : Registry)
  (obj_type : GrapheneType) (field_name : string) : option string :=
  default ∅ (_registry_orm_fields self !! type_id obj_type) !! field_name.

(** The module variable [registry] and the next object to be made. *)
Record Globals : Type := mkGlobals {
  registry : option Registry;
  next_id : nat
}.

Definition get_global_registry (g : Globals) : Registry * Globals :=
  match registry g with
  | Some r => (r, g)
  | None =>
      let r := new_registry (next_id g) in
      (r, mkGlobals (Some r) (S (next_id g)))
  end.

Definition reset_global_registry (g : Globals) : Globals :=
  mkGlobals None (next_id g).

(** ** The node interface *)

(** What [resolve_type] is given: an instance of a graphene object type, or
    an instance of a mapped class. *)
Inductive instance : Type :=
| InstanceOfObjectType (t : GrapheneType)
| InstanceOfModel (model : string).

(** [SQLAlchemyInterface.resolve_type(instance, info, registry)]:
    [meta_registry] is [None] when [cls._meta] has no attribute [registry],
    and [Some r] when it has one with value [r]. *)
Definition resolve_type (g : Globals) (cls_meta_registry : option (option Registry))
  (inst : instance) (registry0 : option Registry)
  : result GrapheneType * Globals :=
  match inst with
  | InstanceOfObjectType t => (Ok t, g)
  | InstanceOfModel model =>
      let '(registry1, g) :=
        match registry0 with
        | Some r => (Some r, g)
        | None =>
            match cls_meta_registry with
            | None => let '(r, g) := get_global_registry g in (Some r, g)
            | Some r => (r, g)
            end
        end in
      match registry1 with
      | None => (Err (AttributeError "get_type_for_model"), g)
      | Some r =>
          match get_type_for_model r model with
          | Some graphene_model => (Ok graphene_model, g)
          | None => (Err ValueError, g)
          end
      end
  end.

(** ** The connection field factory *)

(** What [__connectionFactory] is bound to. *)
Inductive connection_factory : Type :=
| UnsortedFactory                   (* [UnsortedSQLAlchemyConnectionField] *)
| OtherFactory (name : string).

(** The module variable and the warnings issued so far. *)
Record FactoryState : Type := mkFactoryState {
  connectionFactory : connection_factory;
  warnings : list string
}.

(** A call of the factory: [__connectionFactory(model_type, **field_kwargs)]. *)
Record FactoryCall : Type := mkFactoryCall {
  call_factory : connection_factory;
  call_type : option GrapheneType;
  call_kwargs : list (string * kwarg)
}.

Definition default_connection_field_factory (st : FactoryState)
  (relationship_entity : string) (registry0 : Registry)
  (field_kwargs : list (string * kwarg)) : FactoryCall :=
  let model := relationship_entity in
  let model_type := get_type_for_model registry0 model in
  mkFactoryCall (connectionFactory st) model_type field_kwargs.

Definition createConnectionField (st : FactoryState) (_type : option GrapheneType)
  (field_kwargs : list (string * kwarg)) : FactoryCall * FactoryState :=
  (mkFactoryCall (connectionFactory st) _type field_kwargs,
   mkFactoryState (connectionFactory st) (warnings st ++ ["DeprecationWarning"])).

Definition registerConnectionFieldFactory (st : FactoryState)
  (factoryMethod : connection_factory) : FactoryState :=
  mkFactoryState factoryMethod (warnings st ++ ["DeprecationWarning"]).

Definition unregisterConnectionFieldFactory (st : FactoryState) : FactoryState :=
  mkFactoryState UnsortedFactory (warnings st ++ ["DeprecationWarning"]).

(** ** More of the small schema *)

Definition ArticleClass : MappedClass :=
  mkMapped "Article"
    [mkColumn "id" (GOther "Int"); mkColumn "headline" (GOther "String");
     mkColumn "or" (GOther "String"); mkColumn "tags" GList;
     mkColumn "pub date" (GOther "String")].

Definition ArticleType : GrapheneType :=
  mkType 1 true true false false "Article" 0.

Definition ArticleNode : GrapheneType :=
  mkType 2 true false true false "Article" 0.

(** A store where [one()] finds a row for reporters only. *)
Definition reporters_store : Store :=
  mkStore (fun model ctx => mkQuery model ctx [] [])
          (fun _ => 1) (fun _ => [VInt 7])
          (fun q =>
             if String.eqb (model_name (entity q)) "Reporter"
             then OneRow (VInt 7) else NoRow).

(** * Properties *)

(** ** The loop of [where_clause] *)

Lemma where_clause_unfold model filter operator :
  where_clause model filter operator
  = where_loop model operator filter (apply_operator operator []).
Proof.
  unfold where_clause. simpl.
  generalize (apply_operator operator []).
  induction filter as [|[k v] rest IH]; intros acc; simpl; [reflexivity|].
  unfold key_clause.
  destruct (String.eqb k "or" && isinstance_Mapping v).
  { destruct (where_value model Or v); simpl; [apply IH | reflexivity]. }
  destruct (String.eqb k "and" && isinstance_Mapping v).
  { destruct (where_value model And v); simpl; [apply IH | reflexivity]. }
  destruct (create_filter_clause model k v) as [f|e]; simpl; [|reflexivity].
  destruct (call f); simpl; [apply IH | reflexivity].
Qed.

(** A key that is not a combinator is compiled by [create_filter_clause]
    and the result is called. *)
Lemma key_clause_field model k v :
  k <> "or" -> k <> "and" ->
  key_clause model k v = (f <- create_filter_clause model k v ;; call f).
Proof.
  intros Hor Hand. unfold key_clause.
  apply String.eqb_neq in Hor. apply String.eqb_neq in Hand.
  rewrite Hor, Hand. reflexivity.
Qed.

(** The loop stops at the first key that raises. *)
Lemma where_loop_raises model operator pre k v post acc e :
  key_clause model k v = Err e ->
  exists e', where_loop model operator (pre ++ (k, v) :: post) acc = Err e'.
Proof.
  intros Hk. revert acc.
  induction pre as [|[k0 v0] pre IH]; intros acc; simpl.
  - rewrite Hk. simpl. eauto.
  - destruct (key_clause model k0 v0) as [sub|e0]; simpl; [apply IH | eauto].
Qed.

(** ** Leaves *)

(** C10: a leaf whose mapping has no key or has two or more keys makes
    [create_filter_clause] raise (the unpacking of the single pair fails).
    It is neither compiled as an equality nor dropped: wherever such a leaf
    stands in a filter node, under a field name, [where_clause] raises. *)
Theorem C10_leaf_mapping_needs_one_key model field items :
  List.length items <> 1%nat ->
  create_filter_clause model field (VMap items) = Err ValueError /\
  (field <> "or" -> field <> "and" ->
   forall operator pre post,
     exists e,
       where_clause model (pre ++ (field, VMap items) :: post) operator = Err e).
Proof.
  intros Hlen.
  assert (Hc : create_filter_clause model field (VMap items) = Err ValueError).
  { destruct items as [|p [|p' rest]]; simpl in *; try reflexivity.
    exfalso; apply Hlen; reflexivity. }
  split; [exact Hc|].
  intros Hor Hand operator pre post.
  rewrite where_clause_unfold.
  apply where_loop_raises with (e := ValueError).
  rewrite key_clause_field by assumption. rewrite Hc. reflexivity.
Qed.

Lemma C10_leaf_mapping_needs_one_key_witness :
  create_filter_clause Article "headline"
    (VMap [("equal", VStr "X"); ("like", VStr "Y")]) = Err ValueError /\
  exists e,
    where_clause Article
      ([("id", VInt 1)] ++ ("headline", VMap []) :: [("reporter_id", VInt 3)]) And
    = Err e.
Proof.
  split.
  - apply (C10_leaf_mapping_needs_one_key Article "headline"
             [("equal", VStr "X"); ("like", VStr "Y")]).
    simpl. lia.
  - apply (C10_leaf_mapping_needs_one_key Article "headline" []).
    + simpl. lia.
    + discriminate.
    + discriminate.
Defined.

(** C9, as the code has it: a leaf that is not a mapping is compiled to the
    equality [field == value] when its type is [str], [int], [bool] (a
    subclass of [int]) or [UUID]; for every other type
    [create_filter_clause] raises [NotImplementedError] with the type of
    the value, the field and the model. *)
Theorem C9_bare_scalar_leaf model field v :
  isinstance_Mapping v = false ->
  (type_of v = TStr \/ type_of v = TInt \/ type_of v = TBool \/ type_of v = TUUID ->
   create_filter_clause model field v = Ok (Lambda (compare OpEq model field v)) /\
   (In field (model_attrs model) ->
    call (Lambda (compare OpEq model field v))
    = Ok (Atom (Compare OpEq (Column (model_name model) field) v)))) /\
  (type_of v <> TStr -> type_of v <> TInt -> type_of v <> TBool ->
   type_of v <> TUUID ->
   create_filter_clause model field v
   = Err (NotImplementedError (type_of v) field model)).
Proof.
  intros Hmap. split.
  - intros Ht. split.
    + destruct v; simpl in *; try reflexivity;
        destruct Ht as [Ht|[Ht|[Ht|Ht]]]; discriminate.
    + intros Hin. simpl. unfold compare, getattr.
      replace (existsb (String.eqb field) (model_attrs model)) with true.
      * reflexivity.
      * symmetry. apply existsb_exists. exists field. split; [exact Hin|].
        apply String.eqb_refl.
  - intros H1 H2 H3 H4.
    destruct v; simpl in *; try reflexivity; try discriminate; congruence.
Qed.

Lemma C9_bare_scalar_leaf_witness :
  (create_filter_clause Article "reporter_id" (VInt 7)
   = Ok (Lambda (compare OpEq Article "reporter_id" (VInt 7))) /\
   call (Lambda (compare OpEq Article "reporter_id" (VInt 7)))
   = Ok (Atom (Compare OpEq (Column "Article" "reporter_id") (VInt 7)))) /\
  create_filter_clause Article "headline" (VFloat 3 (-1))
  = Err (NotImplementedError TFloat "headline" Article).
Proof.
  split.
  - destruct (C9_bare_scalar_leaf Article "reporter_id" (VInt 7) eq_refl)
      as [Heq _].
    destruct (Heq (or_intror (or_introl eq_refl))) as [Hc Hcall].
    split; [exact Hc|]. apply Hcall. simpl. tauto.
  - destruct (C9_bare_scalar_leaf Article "headline" (VFloat 3 (-1)) eq_refl)
      as [_ Herr].
    apply Herr; discriminate.
Defined.

(** C9 as stated fails on a boolean: its type is none of string, integer
    and unique identifier, and the leaf is compiled to an equality instead
    of raising. *)
Lemma C9_boolean_leaf_does_not_raise :
  isinstance_Mapping (VBool true) = false /\
  type_of (VBool true) <> TStr /\
  type_of (VBool true) <> TInt /\
  type_of (VBool true) <> TUUID /\
  create_filter_clause Article "published" (VBool true)
  <> Err (NotImplementedError (type_of (VBool true)) "published" Article) /\
  (f <- create_filter_clause Article "published" (VBool true) ;; call f)
  = Ok (Atom (Compare OpEq (Column "Article" "published") (VBool true))).
Proof.
  repeat split; try discriminate; reflexivity.
Qed.

(** The six operator tags [create_filter_clause] knows. *)
Lemma unknown_operator_empty_tuple model field operator v :
  operator <> "equal" -> operator <> "notEqual" -> operator <> "lessThan" ->
  operator <> "greaterThan" -> operator <> "like" -> operator <> "in" ->
  create_filter_clause model field (VMap [(operator, v)]) = Ok EmptyTuple.
Proof.
  intros H1 H2 H3 H4 H5 H6. simpl.
  apply String.eqb_neq in H1, H2, H3, H4, H5, H6.
  rewrite H1, H2, H3, H4, H5, H6. reflexivity.
Qed.

(** A leaf with an unknown operator tag makes the loop raise [TypeError]
    when it is reached. *)
Lemma unknown_operator_raises model field operator v rest combinator :
  field <> "or" -> field <> "and" ->
  operator <> "equal" -> operator <> "notEqual" -> operator <> "lessThan" ->
  operator <> "greaterThan" -> operator <> "like" -> operator <> "in" ->
  where_clause model ((field, VMap [(operator, v)]) :: rest) combinator
  = Err TypeError.
Proof.
  intros Hor Hand H1 H2 H3 H4 H5 H6.
  rewrite where_clause_unfold. cbn [where_loop].
  rewrite key_clause_field by assumption.
  rewrite unknown_operator_empty_tuple by assumption. reflexivity.
Qed.

(** C1: with an operator tag that is none of the six, [create_filter_clause]
    returns the empty tuple it started with, and [where_clause] calls it:
    the compilation of the node raises [TypeError], while the node without
    that key compiles.  [filter_query], which dispatches on the same tags,
    leaves its query as it is. *)
Theorem C1_unknown_operator_raises :
  create_filter_clause Article "headline" (VMap [("contains", VStr "Foo")])
  = Ok EmptyTuple /\
  where_clause Article
    [("id", VInt 1); ("headline", VMap [("contains", VStr "Foo")])] And
  = Err TypeError /\
  where_clause Article [("id", VInt 1)] And
  = Ok (Grouping (and_ [and_ []; Atom (Compare OpEq (Column "Article" "id") (VInt 1))])) /\
  forall query,
    filter_query query Article "headline" (VMap [("contains", VStr "Foo")])
    = Ok query.
Proof.
  repeat split; reflexivity.
Qed.

(** ** Sibling keys *)

Lemma merge_None_r op x : merge op x None = x.
Proof. destruct x; reflexivity. Qed.

Lemma merge_comm op x y : merge op x y = merge op y x.
Proof.
  destruct op, x as [[]|], y as [[]|]; reflexivity.
Qed.

Lemma merge_assoc op x y z :
  merge op x (merge op y z) = merge op (merge op x y) z.
Proof.
  destruct op, x as [[]|], y as [[]|], z as [[]|]; reflexivity.
Qed.

Lemma join_cons op x l : join op (x :: l) = merge op x (join op l).
Proof. reflexivity. Qed.

Lemma join_permutation op l l' :
  Permutation l l' -> join op l = join op l'.
Proof.
  induction 1 as [|x l l' _ IH|x y l|l l' l'' _ IH1 _ IH2].
  - reflexivity.
  - rewrite !join_cons, IH. reflexivity.
  - rewrite !join_cons, !merge_assoc, (merge_comm op y x). reflexivity.
  - congruence.
Qed.

Lemma fold_left_merge op l x :
  fold_left (merge op) l x = merge op x (join op l).
Proof.
  revert x. induction l as [|y l IH]; intros x; simpl.
  - symmetry. apply merge_None_r.
  - rewrite IH. fold (join op l). symmetry. apply merge_assoc.
Qed.

Section EvalFacts.
Context {Row : Type} (holds : Row -> atom -> bool) (row : Row).

Lemma eval_self_group c : eval holds row (self_group c) = eval holds row c.
Proof. destruct c as [a|op [|x l]|c]; reflexivity. Qed.

Lemma eval_apply_operator op cs :
  eval holds row (apply_operator op cs) = join op (List.map (eval holds row) cs).
Proof. destruct op; reflexivity. Qed.

Lemma eval_accumulate op subs acc :
  eval holds row
    (fold_left (fun acc sub => apply_operator op [acc; sub]) subs acc)
  = fold_left (merge op) (List.map (eval holds row) subs) (eval holds row acc).
Proof.
  revert acc. induction subs as [|s subs IH]; intros acc; simpl.
  - reflexivity.
  - rewrite IH, eval_apply_operator. simpl.
    rewrite merge_None_r. reflexivity.
Qed.
End EvalFacts.

(** The loop compiles every key and nests the results, left to right, in
    clause lists of the operator of the node. *)
Lemma where_loop_key_clauses model operator items acc :
  where_loop model operator items acc
  = (subs <- key_clauses model items ;;
     Ok (self_group
           (fold_left (fun acc sub => apply_operator operator [acc; sub]) subs acc))).
Proof.
  revert acc. induction items as [|[k v] rest IH]; intros acc; simpl.
  - reflexivity.
  - destruct (key_clause model k v) as [sub|e]; simpl; [|reflexivity].
    rewrite IH. destruct (key_clauses model rest); reflexivity.
Qed.

Lemma key_clauses_permutation model items items' subs :
  Permutation items items' ->
  key_clauses model items = Ok subs ->
  exists subs', key_clauses model items' = Ok subs' /\ Permutation subs subs'.
Proof.
  intros Hperm. revert subs.
  induction Hperm as [|[k v] l l' _ IH|[k1 v1] [k2 v2] l|l l' l'' _ IH1 _ IH2];
    intros subs Hsubs; simpl in *.
  - exists subs. split; [exact Hsubs | reflexivity].
  - destruct (key_clause model k v) as [s|e]; simpl in *; [|discriminate].
    destruct (key_clauses model l) as [ss|e]; simpl in *; [|discriminate].
    destruct (IH ss eq_refl) as [ss' [Hss' Hp]].
    rewrite Hss'. simpl. inversion Hsubs; subst.
    exists (s :: ss'). split; [reflexivity | constructor; exact Hp].
  - destruct (key_clause model k2 v2) as [s2|e]; simpl in *; [|discriminate].
    destruct (key_clause model k1 v1) as [s1|e]; simpl in *; [|discriminate].
    destruct (key_clauses model l) as [ss|e]; simpl in *; [|discriminate].
    inversion Hsubs; subst.
    exists (s1 :: s2 :: ss). split; [reflexivity | constructor].
  - destruct (IH1 subs Hsubs) as [subs' [H' Hp']].
    destruct (IH2 subs' H') as [subs'' [H'' Hp'']].
    exists subs''. split; [exact H'' | etransitivity; eassumption].
Qed.

Lemma where_clause_eval model node operator compiled :
  where_clause model node operator = Ok compiled ->
  exists subs,
    key_clauses model node = Ok subs /\
    forall (Row : Type) (holds : Row -> atom -> bool) (row : Row),
      eval holds row compiled = join operator (List.map (eval holds row) subs).
Proof.
  rewrite where_clause_unfold, where_loop_key_clauses.
  destruct (key_clauses model node) as [subs|e]; simpl; [|discriminate].
  intros H. inversion H; subst; clear H.
  exists subs. split; [reflexivity|].
  intros Row holds row.
  rewrite eval_self_group, eval_accumulate, fold_left_merge.
  rewrite eval_apply_operator. reflexivity.
Qed.

(** C2, as the code has it: the predicate of a filter node is the join of
    the predicates of its keys under the operator the node is compiled
    with ([and_] at the top and under the key [and], [or_] under the key
    [or]), and it takes the same value on every row, so selects the same
    rows, whatever the order of the keys. *)
Theorem C2_node_joins_keys_with_its_operator model node operator compiled :
  where_clause model node operator = Ok compiled ->
  exists subs,
    key_clauses model node = Ok subs /\
    (forall (Row : Type) (holds : Row -> atom -> bool) (row : Row),
       eval holds row compiled = join operator (List.map (eval holds row) subs)) /\
    (forall node',
       Permutation node node' ->
       exists compiled',
         where_clause model node' operator = Ok compiled' /\
         forall (Row : Type) (holds : Row -> atom -> bool) (row : Row),
           eval holds row compiled' = eval holds row compiled /\
           selects holds row compiled' = selects holds row compiled).
Proof.
  intros Hc.
  destruct (where_clause_eval _ _ _ _ Hc) as [subs [Hsubs Heval]].
  exists subs. split; [exact Hsubs|]. split; [exact Heval|].
  intros node' Hperm.
  destruct (key_clauses_permutation _ _ _ _ Hperm Hsubs) as [subs' [Hsubs' Hp]].
  assert (Hc' : exists compiled', where_clause model node' operator = Ok compiled').
  { rewrite where_clause_unfold, where_loop_key_clauses, Hsubs'. simpl. eauto. }
  destruct Hc' as [compiled' Hc'].
  exists compiled'. split; [exact Hc'|].
  intros Row holds row.
  destruct (where_clause_eval _ _ _ _ Hc') as [subs'' [Hsubs'' Heval']].
  rewrite Hsubs' in Hsubs''. inversion Hsubs''; subst.
  assert (Heq : eval holds row compiled' = eval holds row compiled).
  { rewrite Heval, Heval'.
    apply join_permutation, Permutation_map. symmetry. exact Hp. }
  split; [exact Heq|]. unfold selects. rewrite Heq. reflexivity.
Qed.

Lemma C2_node_joins_keys_with_its_operator_witness :
  exists subs,
    key_clauses Article [("headline", VStr "Y"); ("reporter_id", VInt 3)] = Ok subs /\
    (forall (Row : Type) (holds : Row -> atom -> bool) (row : Row),
       eval holds row
         (Grouping (or_ [or_ [or_ [];
            Atom (Compare OpEq (Column "Article" "headline") (VStr "Y"))];
            Atom (Compare OpEq (Column "Article" "reporter_id") (VInt 3))]))
       = join Or (List.map (eval holds row) subs)) /\
    (forall node',
       Permutation [("headline", VStr "Y"); ("reporter_id", VInt 3)] node' ->
       exists compiled',
         where_clause Article node' Or = Ok compiled' /\
         forall (Row : Type) (holds : Row -> atom -> bool) (row : Row),
           eval holds row compiled'
           = eval holds row
               (Grouping (or_ [or_ [or_ [];
                  Atom (Compare OpEq (Column "Article" "headline") (VStr "Y"))];
                  Atom (Compare OpEq (Column "Article" "reporter_id") (VInt 3))])) /\
           selects holds row compiled'
           = selects holds row
               (Grouping (or_ [or_ [or_ [];
                  Atom (Compare OpEq (Column "Article" "headline") (VStr "Y"))];
                  Atom (Compare OpEq (Column "Article" "reporter_id") (VInt 3))]))).
Proof.
  apply (C2_node_joins_keys_with_its_operator Article
           [("headline", VStr "Y"); ("reporter_id", VInt 3)] Or).
  reflexivity.
Defined.

(** C2 as stated fails under the key [or]: the two sibling keys of the
    child node are joined with OR.  On a row with another headline
    and reporter 3 the compiled predicate holds, the conjunction of the
    predicates of the two keys does not. *)
Lemma C2_siblings_under_or_are_not_conjoined :
  (2 <= List.length [("headline", VStr "Y"); ("reporter_id", VInt 3)])%nat /\
  where_clause Article
    [("or", VMap [("headline", VStr "Y"); ("reporter_id", VInt 3)])] And
  = Ok (Grouping (and_ [and_ [];
          Grouping (or_ [or_ [or_ [];
            Atom (Compare OpEq (Column "Article" "headline") (VStr "Y"))];
            Atom (Compare OpEq (Column "Article" "reporter_id") (VInt 3))])])) /\
  where_clause Article [("headline", VStr "Y"); ("reporter_id", VInt 3)] Or
  = Ok (Grouping (or_ [or_ [or_ [];
          Atom (Compare OpEq (Column "Article" "headline") (VStr "Y"))];
          Atom (Compare OpEq (Column "Article" "reporter_id") (VInt 3))])) /\
  key_clauses Article [("headline", VStr "Y"); ("reporter_id", VInt 3)]
  = Ok [Atom (Compare OpEq (Column "Article" "headline") (VStr "Y"));
        Atom (Compare OpEq (Column "Article" "reporter_id") (VInt 3))] /\
  eval holds_eq article_1
    (Grouping (or_ [or_ [or_ [];
       Atom (Compare OpEq (Column "Article" "headline") (VStr "Y"))];
       Atom (Compare OpEq (Column "Article" "reporter_id") (VInt 3))]))
  <> join And
       (List.map (eval holds_eq article_1)
          [Atom (Compare OpEq (Column "Article" "headline") (VStr "Y"));
           Atom (Compare OpEq (Column "Article" "reporter_id") (VInt 3))]).
Proof.
  split; [simpl; lia|].
  split; [reflexivity|]. split; [reflexivity|]. split; [reflexivity|].
  vm_compute. discriminate.
Qed.

(** ** Combinators *)

Lemma join_app op l1 l2 :
  join op (l1 ++ l2) = merge op (join op l1) (join op l2).
Proof.
  induction l1 as [|x l1 IH].
  - reflexivity.
  - change (join op ((x :: l1) ++ l2)) with (merge op x (join op (l1 ++ l2))).
    change (join op (x :: l1)) with (merge op x (join op l1)).
    rewrite IH. apply merge_assoc.
Qed.

Lemma key_clauses_app model pre post :
  key_clauses model (pre ++ post)
  = (s1 <- key_clauses model pre ;;
     s2 <- key_clauses model post ;;
     Ok (s1 ++ s2)%list).
Proof.
  induction pre as [|[k v] pre IH]; simpl.
  - destruct (key_clauses model post); reflexivity.
  - destruct (key_clause model k v) as [s|e]; simpl; [|reflexivity].
    rewrite IH.
    destruct (key_clauses model pre) as [s1|e]; simpl; [|reflexivity].
    destruct (key_clauses model post) as [s2|e]; reflexivity.
Qed.

Lemma where_clause_of_key_clauses model node operator subs :
  key_clauses model node = Ok subs ->
  where_clause model node operator
  = Ok (self_group
          (fold_left (fun acc sub => apply_operator operator [acc; sub]) subs
             (apply_operator operator []))).
Proof.
  intros Hsubs. rewrite where_clause_unfold, where_loop_key_clauses, Hsubs.
  reflexivity.
Qed.

Lemma where_clause_key_clauses model node operator compiled :
  where_clause model node operator = Ok compiled ->
  exists subs, key_clauses model node = Ok subs.
Proof.
  rewrite where_clause_unfold, where_loop_key_clauses.
  destruct (key_clauses model node) as [subs|e]; [eauto | discriminate].
Qed.

(** What a node with a single combinator key compiles to. *)
Lemma where_clause_single_and model child operator :
  where_clause model [("and", VMap child)] operator
  = (inner <- where_clause model child And ;;
     Ok (Grouping (apply_operator operator [apply_operator operator []; inner]))).
Proof.
  assert (Hkey : key_clause model "and" (VMap child) = where_clause model child And)
    by reflexivity.
  rewrite where_clause_unfold. cbn [where_loop]. rewrite Hkey.
  destruct (where_clause model child And) as [inner|e]; [|reflexivity].
  destruct operator; reflexivity.
Qed.

Lemma where_clause_single_or model child operator :
  where_clause model [("or", VMap child)] operator
  = (inner <- where_clause model child Or ;;
     Ok (Grouping (apply_operator operator [apply_operator operator []; inner]))).
Proof.
  assert (Hkey : key_clause model "or" (VMap child) = where_clause model child Or)
    by reflexivity.
  rewrite where_clause_unfold. cbn [where_loop]. rewrite Hkey.
  destruct (where_clause model child Or) as [inner|e]; [|reflexivity].
  destruct operator; reflexivity.
Qed.

(** Two nodes that compile, one after the other in one node. *)
Lemma where_clause_app model pre post operator c1 c2 :
  where_clause model pre operator = Ok c1 ->
  where_clause model post operator = Ok c2 ->
  exists joined,
    where_clause model (pre ++ post) operator = Ok joined /\
    forall (Row : Type) (holds : Row -> atom -> bool) (row : Row),
      eval holds row joined
      = merge operator (eval holds row c1) (eval holds row c2).
Proof.
  intros H1 H2.
  destruct (where_clause_eval _ _ _ _ H1) as [s1 [Hs1 He1]].
  destruct (where_clause_eval _ _ _ _ H2) as [s2 [Hs2 He2]].
  assert (Hs : key_clauses model (pre ++ post) = Ok (s1 ++ s2)%list).
  { rewrite key_clauses_app, Hs1, Hs2. reflexivity. }
  pose proof (where_clause_of_key_clauses model (pre ++ post) operator _ Hs) as Hc.
  eexists. split; [exact Hc|].
  intros Row holds row.
  destruct (where_clause_eval _ _ _ _ Hc) as [s [Hs' He]].
  rewrite Hs in Hs'. inversion Hs'; subst s.
  rewrite He, He1, He2, List.map_app. apply join_app.
Qed.

(** C3: [where_clause] compiles the child of an [and] key with [and_] and
    the child of an [or] key with [or_], whatever the operator of the node
    the key stands in: a node with that key alone is the grouping of the
    compiled child joined to the empty list of the operator of the node,
    and it raises what the child raises; and where keys stand one after
    the other in a node, the predicate of the node is the join, under the
    operator of the node, of what the parts compile to.  So the filter
    [{or: {a: 1, and: {b: 2, c: 3}}}] compiles to a predicate in which every
    compiled level is grouped and which holds on a row exactly when
    [a = 1] holds or both [b = 2] and [c = 3] hold. *)
Theorem C3_nested_combinators name others :
  let model := mkModel name ("a" :: "b" :: "c" :: others) in
  let a := Compare OpEq (Column name "a") (VInt 1) in
  let b := Compare OpEq (Column name "b") (VInt 2) in
  let c := Compare OpEq (Column name "c") (VInt 3) in
  let compiled :=
    Grouping (and_ [and_ [];
      Grouping (or_ [or_ [or_ []; Atom a];
        Grouping (and_ [and_ [and_ []; Atom b]; Atom c])])]) in
  (forall m child operator,
     where_clause m [("and", VMap child)] operator
     = (inner <- where_clause m child And ;;
        Ok (Grouping (apply_operator operator [apply_operator operator []; inner])))) /\
  (forall m child operator,
     where_clause m [("or", VMap child)] operator
     = (inner <- where_clause m child Or ;;
        Ok (Grouping (apply_operator operator [apply_operator operator []; inner])))) /\
  (forall m pre post operator c1 c2,
     where_clause m pre operator = Ok c1 ->
     where_clause m post operator = Ok c2 ->
     exists joined,
       where_clause m (pre ++ post) operator = Ok joined /\
       forall (Row : Type) (holds : Row -> atom -> bool) (row : Row),
         eval holds row joined
         = merge operator (eval holds row c1) (eval holds row c2)) /\
  where_clause model
    [("or", VMap [("a", VInt 1); ("and", VMap [("b", VInt 2); ("c", VInt 3)])])]
    And = Ok compiled /\
  forall (Row : Type) (holds : Row -> atom -> bool) (row : Row),
    eval holds row compiled
    = Some (holds row a || (holds row b && holds row c)).
Proof.
  intros model a b c compiled.
  split; [intros; apply where_clause_single_and|].
  split; [intros; apply where_clause_single_or|].
  split; [intros m pre post operator c1 c2; apply where_clause_app|].
  split.
  - reflexivity.
  - intros Row holds row. reflexivity.
Qed.

Lemma C3_nested_combinators_witness :
  exists joined,
    where_clause Article
      ([("headline", VStr "X")]
       ++ [("and", VMap [("id", VInt 1); ("reporter_id", VInt 3)])]) Or
    = Ok joined /\
    forall (Row : Type) (holds : Row -> atom -> bool) (row : Row),
      eval holds row joined
      = merge Or
          (eval holds row
             (Grouping (or_ [or_ [];
                Atom (Compare OpEq (Column "Article" "headline") (VStr "X"))])))
          (eval holds row
             (Grouping (or_ [or_ [];
                Grouping (and_ [and_ [and_ [];
                  Atom (Compare OpEq (Column "Article" "id") (VInt 1))];
                  Atom (Compare OpEq (Column "Article" "reporter_id") (VInt 3))])]))).
Proof.
  destruct (C3_nested_combinators "M" []) as [_ [_ [Happ _]]].
  apply (Happ Article [("headline", VStr "X")]
           [("and", VMap [("id", VInt 1); ("reporter_id", VInt 3)])] Or);
    reflexivity.
Defined.

(** ** Query builders *)

Lemma related_filters_query store model info kwargs items query query' :
  SQLAlchemyFilteredConnectionField.related_filters
    store model info kwargs items query = Ok query' ->
  query' = query.
Proof.
  induction items as [|[k v] rest IH]; simpl.
  - congruence.
  - destruct (getattr_default model k); [|exact IH].
    destruct v; try exact IH.
    destruct (one store _); simpl; [exact IH | discriminate].
Qed.

Lemma related_filters_nil store model info kwargs query :
  SQLAlchemyFilteredConnectionField.related_filters
    store model info kwargs [] query = Ok query.
Proof. reflexivity. Qed.

(** C4: the query [get_query] of the filtered field returns is the one it
    returns without any keyword argument.  The query that
    [query.filter(column == related)] makes for a structured filter value is
    dropped: nothing of the related record constrains the result. *)
Theorem C4_related_filter_is_dropped store model info where_ sort kwargs query :
  SQLAlchemyFilteredConnectionField.get_query store model info where_ sort kwargs
  = Ok query ->
  SQLAlchemyFilteredConnectionField.get_query store model info where_ sort []
  = Ok query.
Proof.
  unfold SQLAlchemyFilteredConnectionField.get_query.
  unfold UnsortedSQLAlchemyConnectionField.get_query.
  rewrite related_filters_nil.
  destruct (SQLAlchemyFilteredConnectionField.related_filters _ _ _ _ _ _)
    as [q|e] eqn:Hrel; simpl; [|discriminate].
  apply related_filters_query in Hrel. subst q. exact (fun H => H).
Qed.

Lemma C4_related_filter_is_dropped_witness :
  SQLAlchemyFilteredConnectionField.get_query one_reporter_store Article
    articles_info None None
    [("reporter", AInput (mkInput Reporter [("name", VStr "Jane")]))]
  = Ok (mkQuery Article "session" [] []) /\
  SQLAlchemyFilteredConnectionField.get_query one_reporter_store Article
    articles_info None None []
  = Ok (mkQuery Article "session" [] []).
Proof.
  split.
  - reflexivity.
  - apply (C4_related_filter_is_dropped one_reporter_store Article articles_info
             None None
             [("reporter", AInput (mkInput Reporter [("name", VStr "Jane")]))]).
    reflexivity.
Defined.

(** C5, as the code has it: [get_query] of the base field appends to the
    ordering of the base query the column of a bare enum value, or the
    columns of a sequence from left to right; [get_query] of the filtered
    field takes a [sort] argument and passes [sort=None] on, so its query
    keeps the ordering of the base query. *)
Theorem C5_order_by store model info args :
  (forall e,
     ordering (UnsortedSQLAlchemyConnectionField.get_query
                 store model info (Some (SortEnum e)) args)
     = (ordering (session_query store model (context info))
        ++ [enum_value e])%list) /\
  (forall cols,
     ordering (UnsortedSQLAlchemyConnectionField.get_query
                 store model info (Some (SortSeq cols)) args)
     = (ordering (session_query store model (context info))
        ++ List.map enum_value cols)%list) /\
  (forall where_ sort query,
     SQLAlchemyFilteredConnectionField.get_query store model info where_ sort args
     = Ok query ->
     ordering query = ordering (session_query store model (context info))).
Proof.
  split; [reflexivity|]. split; [reflexivity|].
  intros where_ sort query.
  unfold SQLAlchemyFilteredConnectionField.get_query.
  destruct (SQLAlchemyFilteredConnectionField.related_filters _ _ _ _ _ _)
    as [q|e] eqn:Hrel; simpl; [|discriminate].
  apply related_filters_query in Hrel. subst q.
  unfold UnsortedSQLAlchemyConnectionField.get_query.
  destruct where_ as [w|]; [|intros H; inversion H; reflexivity].
  destruct (truthy w); [|intros H; inversion H; reflexivity].
  destruct (where_value model And w); simpl; [|discriminate].
  intros H; inversion H; reflexivity.
Qed.

Lemma C5_order_by_witness :
  ordering (UnsortedSQLAlchemyConnectionField.get_query empty_store Article
              articles_info (Some (SortSeq [headline_asc; id_desc])) [])
  = [OrderBy (Column "Article" "headline") Asc;
     OrderBy (Column "Article" "id") Desc] /\
  ordering (mkQuery Article "session"
              [Where (Grouping (and_ [and_ [];
                 Atom (Compare OpEq (Column "Article" "id") (VInt 1))]))] [])
  = [].
Proof.
  destruct (C5_order_by empty_store Article articles_info []) as [_ [Hseq Hfilt]].
  split.
  - apply (Hseq [headline_asc; id_desc]).
  - apply (Hfilt (Some (VMap [("id", VInt 1)]))
             (Some (ASort (SortEnum headline_asc)))).
    reflexivity.
Defined.

(** C5 as stated fails for the filtered field: with a sort argument given,
    the query it returns has no ordering. *)
Lemma C5_filtered_get_query_does_not_sort :
  SQLAlchemyFilteredConnectionField.get_query_kw empty_store Article articles_info
    [("sort", ASort (SortEnum headline_asc))]
  = Ok (mkQuery Article "session" [] []) /\
  ordering (mkQuery Article "session" [] []) <> [enum_value headline_asc] /\
  ordering (UnsortedSQLAlchemyConnectionField.get_query empty_store Article
              articles_info (Some (SortEnum headline_asc)) [])
  = [enum_value headline_asc].
Proof.
  split; [reflexivity|]. split; [discriminate | reflexivity].
Qed.

(** ** Pagination *)

Lemma py_slice_prefix {A : Type} (l : list A) (stop : Z) :
  0 <= stop <= Z.of_nat (List.length l) ->
  py_slice l 0 stop = take (Z.to_nat stop) l.
Proof.
  intros [Hlo Hhi]. unfold py_slice, slice_index.
  destruct (0 <? 0) eqn:H0; [apply Z.ltb_lt in H0; lia|].
  destruct (stop <? 0) eqn:Hs; [apply Z.ltb_lt in Hs; lia|].
  replace (Z.min 0 (Z.of_nat (List.length l))) with 0 by lia.
  replace (Z.min stop (Z.of_nat (List.length l))) with stop by lia.
  rewrite Z.sub_0_r. reflexivity.
Qed.

(** What [resolve_connection] of the base field returns for a collection
    that is already there: [connection_from_list_slice] on the collection
    with its element count, whatever the store and the query builder. *)
Lemma resolve_connection_list cls_get_query store connection_type model info args l :
  UnsortedSQLAlchemyConnectionField.resolve_connection cls_get_query store
    connection_type model info args (Some (IList l))
  = Ok (Connection.mk
          (fst (connection_from_list_slice l args 0
                  (Z.of_nat (List.length l)) (Z.of_nat (List.length l))))
          (snd (connection_from_list_slice l args 0
                  (Z.of_nat (List.length l)) (Z.of_nat (List.length l))))
          (IList l) (Z.of_nat (List.length l))).
Proof. reflexivity. Qed.

Lemma connection_first_only l args k :
  args_get args "first" = Some (AValue (VInt k)) ->
  0 <= k ->
  args_get args "last" = None ->
  args_get args "after" = None ->
  args_get args "before" = None ->
  connection_from_list_slice l args 0
    (Z.of_nat (List.length l)) (Z.of_nat (List.length l))
  = (imap (fun i nd => mkEdge nd (OffsetCursor (Z.of_nat i)))
          (take (Z.to_nat (Z.min k (Z.of_nat (List.length l)))) l),
     mkPageInfo
       (first_edge_cursor
          (imap (fun i nd => mkEdge nd (OffsetCursor (Z.of_nat i)))
                (take (Z.to_nat (Z.min k (Z.of_nat (List.length l)))) l)))
       (last_edge_cursor
          (imap (fun i nd => mkEdge nd (OffsetCursor (Z.of_nat i)))
                (take (Z.to_nat (Z.min k (Z.of_nat (List.length l)))) l)))
       false
       (k <? Z.of_nat (List.length l))).
Proof.
  intros Hfirst Hk Hlast Hafter Hbefore.
  unfold connection_from_list_slice.
  rewrite Hfirst, Hlast, Hafter, Hbefore. simpl.
  set (N := Z.of_nat (List.length l)).
  assert (HN : 0 <= N) by (unfold N; lia).
  replace (Z.max (Z.max (0 - 1) (-1)) (-1) + 1) with 0 by lia.
  replace (Z.max (0 - 0) 0) with 0 by lia.
  replace (Z.min (Z.min (Z.min (0 + N) N) N) (0 + k)) with (Z.min k N) by lia.
  replace (N - (0 + N - Z.min k N)) with (Z.min k N) by lia.
  rewrite py_slice_prefix by (fold N; lia).
  f_equal. f_equal.
  destruct (Z.ltb_spec (Z.min k N) N), (Z.ltb_spec k N); try reflexivity; lia.
Qed.

(** C6: for a resolved list of [N] elements and [first = k] as the only
    pagination argument, [resolve_connection] returns an envelope whose
    edges are the first [min k N] elements, the edge at position [i]
    carrying the cursor of offset [i] in the full list, with
    [has_next_page] equal to [k < N] and [has_previous_page] false. *)
Theorem C6_first_k_without_cursors cls_get_query store connection_type model
  info args (l : list value) (k : Z) :
  args_get args "first" = Some (AValue (VInt k)) ->
  0 <= k ->
  args_get args "last" = None ->
  args_get args "after" = None ->
  args_get args "before" = None ->
  exists connection,
    UnsortedSQLAlchemyConnectionField.resolve_connection cls_get_query store
      connection_type model info args (Some (IList l)) = Ok connection /\
    Connection.edges connection
    = imap (fun i nd => mkEdge nd (offset_to_cursor (Z.of_nat i)))
        (take (Z.to_nat (Z.min k (Z.of_nat (List.length l)))) l) /\
    List.length (Connection.edges connection)
    = Z.to_nat (Z.min k (Z.of_nat (List.length l))) /\
    has_next_page (Connection.page_info connection)
    = (k <? Z.of_nat (List.length l)) /\
    has_previous_page (Connection.page_info connection) = false.
Proof.
  intros Hfirst Hk Hlast Hafter Hbefore.
  rewrite resolve_connection_list.
  rewrite (connection_first_only l args k) by assumption.
  eexists. split; [reflexivity|]. simpl.
  split; [reflexivity|]. split; [|split; reflexivity].
  rewrite length_imap, length_take. lia.
Qed.

Lemma C6_first_k_without_cursors_witness :
  exists connection,
    UnsortedSQLAlchemyConnectionField.resolve_connection
      UnsortedSQLAlchemyConnectionField.get_query_kw empty_store
      "ArticleConnection" Article articles_info
      [("first", AValue (VInt 2))]
      (Some (IList [VStr "a"; VStr "b"; VStr "c"])) = Ok connection /\
    Connection.edges connection
    = imap (fun i nd => mkEdge nd (offset_to_cursor (Z.of_nat i)))
        (take (Z.to_nat (Z.min 2 (Z.of_nat (List.length [VStr "a"; VStr "b"; VStr "c"]))))
           [VStr "a"; VStr "b"; VStr "c"]) /\
    List.length (Connection.edges connection)
    = Z.to_nat (Z.min 2 (Z.of_nat (List.length [VStr "a"; VStr "b"; VStr "c"]))) /\
    has_next_page (Connection.page_info connection)
    = (2 <? Z.of_nat (List.length [VStr "a"; VStr "b"; VStr "c"])) /\
    has_previous_page (Connection.page_info connection) = false.
Proof.
  apply (C6_first_k_without_cursors
           UnsortedSQLAlchemyConnectionField.get_query_kw empty_store
           "ArticleConnection" Article articles_info
           [("first", AValue (VInt 2))] [VStr "a"; VStr "b"; VStr "c"] 2).
  - reflexivity.
  - lia.
  - reflexivity.
  - reflexivity.
  - reflexivity.
Defined.

(** ** Resolution *)

(** What [resolve_connection] of the base field returns when nothing is
    resolved yet and the [sort] keyword can be read: the query of
    [get_query] and what the store says about it. *)
Lemma resolve_connection_none store connection_type model info args sort :
  args_sort args = Ok sort ->
  UnsortedSQLAlchemyConnectionField.resolve_connection
    UnsortedSQLAlchemyConnectionField.get_query_kw store
    connection_type model info args None
  = Ok (Connection.mk
          (fst (connection_from_list_slice
                  (query_all store
                     (UnsortedSQLAlchemyConnectionField.get_query store model
                        info sort (args_without ["sort"] args)))
                  args 0
                  (query_count store
                     (UnsortedSQLAlchemyConnectionField.get_query store model
                        info sort (args_without ["sort"] args)))
                  (query_count store
                     (UnsortedSQLAlchemyConnectionField.get_query store model
                        info sort (args_without ["sort"] args)))))
          (snd (connection_from_list_slice
                  (query_all store
                     (UnsortedSQLAlchemyConnectionField.get_query store model
                        info sort (args_without ["sort"] args)))
                  args 0
                  (query_count store
                     (UnsortedSQLAlchemyConnectionField.get_query store model
                        info sort (args_without ["sort"] args)))
                  (query_count store
                     (UnsortedSQLAlchemyConnectionField.get_query store model
                        info sort (args_without ["sort"] args)))))
          (IQuery (UnsortedSQLAlchemyConnectionField.get_query store model
                     info sort (args_without ["sort"] args)))
          (query_count store
             (UnsortedSQLAlchemyConnectionField.get_query store model
                info sort (args_without ["sort"] args)))).
Proof.
  intros Hsort.
  unfold UnsortedSQLAlchemyConnectionField.resolve_connection,
    UnsortedSQLAlchemyConnectionField.get_query_kw.
  rewrite Hsort. reflexivity.
Qed.

Lemma resolve_connection_bad_sort store connection_type model info args e :
  args_sort args = Err e ->
  UnsortedSQLAlchemyConnectionField.resolve_connection
    UnsortedSQLAlchemyConnectionField.get_query_kw store
    connection_type model info args None
  = Err e.
Proof.
  intros Hsort.
  unfold UnsortedSQLAlchemyConnectionField.resolve_connection,
    UnsortedSQLAlchemyConnectionField.get_query_kw.
  rewrite Hsort. reflexivity.
Qed.

(** C7: when the parent resolver returns [None], [resolve_connection]
    builds the query with [get_query]: for a [sort] keyword that
    [get_query] can read, the connection is made of that query, its length
    is what [count()] of that query gives, and its edges are the
    pagination of the rows of the query; for a [sort] keyword on which
    [get_query] raises, that exception is raised.  When the resolver
    returns a list, the connection is the pagination of that list with its
    element count as length, whatever the store and the query builder
    are: no query is involved.  In both cases the envelope carries the
    resolved iterable and the length. *)
Theorem C7_resolver_deferral store resolver connection_type model root info args :
  (resolver root info args = Ok (Plain None) ->
   (forall sort,
      args_sort args = Ok sort ->
      exists connection,
        UnsortedSQLAlchemyConnectionField.connection_resolver
          (UnsortedSQLAlchemyConnectionField.resolve_connection
             UnsortedSQLAlchemyConnectionField.get_query_kw)
          store resolver connection_type model root info args
        = Ok (Resolved connection) /\
        Connection.iterable connection
        = IQuery (UnsortedSQLAlchemyConnectionField.get_query store model info
                    sort (args_without ["sort"] args)) /\
        Connection.length connection
        = query_count store
            (UnsortedSQLAlchemyConnectionField.get_query store model info
               sort (args_without ["sort"] args)) /\
        (Connection.edges connection, Connection.page_info connection)
        = connection_from_list_slice
            (query_all store
               (UnsortedSQLAlchemyConnectionField.get_query store model info
                  sort (args_without ["sort"] args)))
            args 0 (Connection.length connection) (Connection.length connection)) /\
   (forall e,
      args_sort args = Err e ->
      UnsortedSQLAlchemyConnectionField.connection_resolver
        (UnsortedSQLAlchemyConnectionField.resolve_connection
           UnsortedSQLAlchemyConnectionField.get_query_kw)
        store resolver connection_type model root info args
      = Err e)) /\
  (forall l,
     resolver root info args = Ok (Plain (Some (IList l))) ->
     exists connection,
       (forall cls_get_query store',
          UnsortedSQLAlchemyConnectionField.connection_resolver
            (UnsortedSQLAlchemyConnectionField.resolve_connection cls_get_query)
            store' resolver connection_type model root info args
          = Ok (Resolved connection)) /\
       Connection.iterable connection = IList l /\
       Connection.length connection = Z.of_nat (List.length l) /\
       (Connection.edges connection, Connection.page_info connection)
       = connection_from_list_slice l args 0
           (Z.of_nat (List.length l)) (Z.of_nat (List.length l))).
Proof.
  split.
  - intros Hres. split.
    + intros sort Hsort.
      unfold UnsortedSQLAlchemyConnectionField.connection_resolver.
      rewrite Hres. cbn [bind].
      rewrite (resolve_connection_none _ _ _ _ _ _ Hsort).
      eexists. split; [reflexivity|].
      cbn [Connection.iterable Connection.length Connection.edges
           Connection.page_info].
      split; [reflexivity|]. split; [reflexivity|].
      symmetry. apply surjective_pairing.
    + intros e Hsort.
      unfold UnsortedSQLAlchemyConnectionField.connection_resolver.
      rewrite Hres. cbn [bind].
      rewrite (resolve_connection_bad_sort _ _ _ _ _ _ Hsort). reflexivity.
  - intros l Hres.
    eexists. split.
    + intros cls_get_query store'.
      unfold UnsortedSQLAlchemyConnectionField.connection_resolver.
      rewrite Hres. cbn [bind].
      rewrite resolve_connection_list. reflexivity.
    + cbn [Connection.iterable Connection.length Connection.edges
           Connection.page_info].
      split; [reflexivity|]. split; [reflexivity|].
      symmetry. apply surjective_pairing.
Qed.

Lemma C7_resolver_deferral_witness :
  (exists connection,
     UnsortedSQLAlchemyConnectionField.connection_resolver
       (UnsortedSQLAlchemyConnectionField.resolve_connection
          UnsortedSQLAlchemyConnectionField.get_query_kw)
       one_reporter_store (fun _ _ _ => Ok (Plain None))
       "ReporterConnection" Reporter VNone articles_info
       [("sort", ASort (SortEnum id_desc))]
     = Ok (Resolved connection) /\
     Connection.iterable connection
     = IQuery (mkQuery Reporter "session" []
                 [OrderBy (Column "Article" "id") Desc]) /\
     Connection.length connection = 1) /\
  UnsortedSQLAlchemyConnectionField.connection_resolver
    (UnsortedSQLAlchemyConnectionField.resolve_connection
       UnsortedSQLAlchemyConnectionField.get_query_kw)
    one_reporter_store (fun _ _ _ => Ok (Plain None))
    "ReporterConnection" Reporter VNone articles_info
    [("sort", AValue (VInt 3))]
  = Err TypeError /\
  (exists connection,
     UnsortedSQLAlchemyConnectionField.connection_resolver
       (UnsortedSQLAlchemyConnectionField.resolve_connection
          SQLAlchemyFilteredConnectionField.get_query_kw)
       empty_store (fun _ _ _ => Ok (Plain (Some (IList [VInt 4; VInt 5]))))
       "ReporterConnection" Reporter VNone articles_info []
     = Ok (Resolved connection) /\
     Connection.iterable connection = IList [VInt 4; VInt 5] /\
     Connection.length connection = 2).
Proof.
  split; [|split].
  - destruct (C7_resolver_deferral one_reporter_store
                (fun _ _ _ => Ok (Plain None))
                "ReporterConnection" Reporter VNone articles_info
                [("sort", ASort (SortEnum id_desc))])
      as [Hnone _].
    destruct (Hnone eq_refl) as [Hok _].
    destruct (Hok (Some (SortEnum id_desc)) eq_refl)
      as [connection [Hc [Hi [Hl _]]]].
    exists connection. repeat split; assumption.
  - destruct (C7_resolver_deferral one_reporter_store
                (fun _ _ _ => Ok (Plain None))
                "ReporterConnection" Reporter VNone articles_info
                [("sort", AValue (VInt 3))])
      as [Hnone _].
    destruct (Hnone eq_refl) as [_ Hbad].
    apply (Hbad TypeError). reflexivity.
  - destruct (C7_resolver_deferral one_reporter_store
                (fun _ _ _ => Ok (Plain (Some (IList [VInt 4; VInt 5]))))
                "ReporterConnection" Reporter VNone articles_info [])
      as [_ Hlist].
    destruct (Hlist [VInt 4; VInt 5] eq_refl) as [connection [Hc [Hi [Hl _]]]].
    exists connection. repeat split; try assumption. apply Hc.
Defined.

(** ** Required filters *)

(** The exceptions of the filter compiler are not the one for missing
    filters. *)
Lemma leaf_error model k v e :
  (f <- create_filter_clause model k v ;; call f) = Err e ->
  is_missing_filters e = false.
Proof.
  unfold create_filter_clause, compare, getattr.
  destruct v as [ | | | | | | |items]; simpl;
    try (intros H; inversion H; reflexivity);
    try (destruct (existsb _ _); simpl; intros H; inversion H; reflexivity).
  destruct items as [|[op val] [|more rest]]; simpl;
    try (intros H; inversion H; reflexivity).
  repeat match goal with
         | |- context [if String.eqb op ?s then _ else _] =>
             destruct (String.eqb op s)
         end; simpl;
    try (destruct (existsb _ _); simpl);
    intros H; inversion H; reflexivity.
Qed.

Lemma where_value_error model :
  forall v operator e,
    where_value model operator v = Err e -> is_missing_filters e = false.
Proof.
  fix IH 1.
  intros v operator e. destruct v as [ | | | | | | |items];
    try (simpl; intros H; inversion H; reflexivity).
  simpl. generalize (apply_operator operator []).
  induction items as [|[k v] rest IHitems]; intros acc.
  - discriminate.
  - destruct (String.eqb k "or" && isinstance_Mapping v).
    { destruct (where_value model Or v) as [sub|e0] eqn:Hv; simpl.
      - apply IHitems.
      - intros H; inversion H; subst. exact (IH v Or e Hv). }
    destruct (String.eqb k "and" && isinstance_Mapping v).
    { destruct (where_value model And v) as [sub|e0] eqn:Hv; simpl.
      - apply IHitems.
      - intros H; inversion H; subst. exact (IH v And e Hv). }
    destruct (f <- create_filter_clause model k v ;; call f)
      as [sub|e0] eqn:Hleaf; simpl.
    + apply IHitems.
    + intros H; inversion H; subst. exact (leaf_error _ _ _ _ Hleaf).
Qed.

Lemma related_filters_error store model info kwargs items query e :
  SQLAlchemyFilteredConnectionField.related_filters
    store model info kwargs items query = Err e ->
  is_missing_filters e = false.
Proof.
  induction items as [|[k v] rest IH]; simpl.
  - discriminate.
  - destruct (getattr_default model k); [|exact IH].
    destruct v; try exact IH.
    unfold one. destruct (query_one store _); simpl;
      [exact IH | intros H; inversion H; reflexivity
                | intros H; inversion H; reflexivity].
Qed.

Lemma filtered_get_query_error store model info where_ sort kwargs e :
  SQLAlchemyFilteredConnectionField.get_query store model info where_ sort kwargs
  = Err e ->
  is_missing_filters e = false.
Proof.
  unfold SQLAlchemyFilteredConnectionField.get_query.
  destruct (SQLAlchemyFilteredConnectionField.related_filters _ _ _ _ _ _)
    as [q|e0] eqn:Hrel; simpl.
  - destruct where_ as [w|]; [|discriminate].
    destruct (truthy w); [|discriminate].
    destruct (where_value model And w) as [c|e0] eqn:Hw; simpl; [discriminate|].
    intros H; inversion H; subst. exact (where_value_error _ _ _ _ Hw).
  - intros H; inversion H; subst. exact (related_filters_error _ _ _ _ _ _ _ Hrel).
Qed.

Lemma pagination_error store connection_type model info args resolved e :
  UnsortedSQLAlchemyConnectionField.resolve_connection
    SQLAlchemyFilteredConnectionField.get_query_kw
    store connection_type model info args resolved = Err e ->
  is_missing_filters e = false.
Proof.
  unfold UnsortedSQLAlchemyConnectionField.resolve_connection.
  destruct resolved as [r|]; [discriminate|].
  unfold SQLAlchemyFilteredConnectionField.get_query_kw.
  destruct (SQLAlchemyFilteredConnectionField.get_query _ _ _ _ _ _)
    as [q|e0] eqn:Hq; simpl; [discriminate|].
  intros H; inversion H; subst. exact (filtered_get_query_error _ _ _ _ _ _ _ Hq).
Qed.

(** C8: when the schema field declares required filters and some of their
    keys are not keys of the caller's filter argument, [resolve_connection]
    of the filtered field raises the exception that carries exactly the set
    of the missing keys, whatever the pagination would do; when none is
    missing it is the pagination of the base field, which never raises that
    exception. *)
Theorem C8_required_filters store connection_type model info args resolved
  field req keys :
  schema_getattr (schema_query info) (snake_field_name info) = Ok (Some field) ->
  required field = Some req ->
  filter_keys (args_get args "filter") = Ok keys ->
  (list_to_set (List.map key req) ∖ list_to_set keys ≠ (∅ : gset string) ->
   SQLAlchemyFilteredConnectionField.resolve_connection
     store connection_type model info args resolved
   = Err (MissingFilters (list_to_set (List.map key req) ∖ list_to_set keys))) /\
  (list_to_set (List.map key req) ∖ list_to_set keys = (∅ : gset string) ->
   SQLAlchemyFilteredConnectionField.resolve_connection
     store connection_type model info args resolved
   = UnsortedSQLAlchemyConnectionField.resolve_connection
       SQLAlchemyFilteredConnectionField.get_query_kw
       store connection_type model info args resolved /\
   forall missing,
     SQLAlchemyFilteredConnectionField.resolve_connection
       store connection_type model info args resolved
     <> Err (MissingFilters missing)).
Proof.
  intros Hfield Hreq Hkeys.
  unfold SQLAlchemyFilteredConnectionField.resolve_connection.
  rewrite Hfield. cbn [bind]. rewrite Hreq.
  split.
  - intros Hmissing. destruct req as [|rf rfs].
    + exfalso. apply Hmissing. apply elem_of_equiv_empty_L. intros x.
      rewrite elem_of_difference, elem_of_list_to_set. simpl.
      intros [Hin _]. exact (not_elem_of_nil _ Hin).
    + rewrite Hkeys. cbn [bind].
      destruct (decide _) as [Hempty|_]; [contradiction|]. reflexivity.
  - intros Hnone.
    assert (Hdelegate :
      (_ <- match req with
            | [] => Ok tt
            | rf :: rfs =>
                keys0 <- filter_keys (args_get args "filter") ;;
                (if decide (list_to_set (List.map key (rf :: rfs)) ∖ list_to_set keys0
                            = (∅ : gset string))
                 then Ok tt
                 else Err (MissingFilters
                             (list_to_set (List.map key (rf :: rfs)) ∖ list_to_set keys0)))
            end ;;
       UnsortedSQLAlchemyConnectionField.resolve_connection
         SQLAlchemyFilteredConnectionField.get_query_kw
         store connection_type model info args resolved)
      = UnsortedSQLAlchemyConnectionField.resolve_connection
          SQLAlchemyFilteredConnectionField.get_query_kw
          store connection_type model info args resolved).
    { destruct req as [|rf rfs]; [reflexivity|].
      rewrite Hkeys. cbn [bind].
      destruct (decide _) as [_|Hne]; [reflexivity | contradiction]. }
    split; [exact Hdelegate|].
    intros missing Habs. rewrite Hdelegate in Habs.
    apply pagination_error in Habs. discriminate.
Qed.

Lemma C8_required_filters_witness :
  SQLAlchemyFilteredConnectionField.resolve_connection empty_store
    "ArticleConnection" Article articles_info
    [("filter", AValue (VMap [("headline", VStr "X")]))] None
  = Err (MissingFilters
           (list_to_set (List.map key [mkRequired "reporter_id"])
            ∖ list_to_set ["headline"])) /\
  SQLAlchemyFilteredConnectionField.resolve_connection empty_store
    "ArticleConnection" Article articles_info
    [("filter", AValue (VMap [("reporter_id", VInt 7)]))] (Some (IList []))
  = UnsortedSQLAlchemyConnectionField.resolve_connection
      SQLAlchemyFilteredConnectionField.get_query_kw empty_store
      "ArticleConnection" Article articles_info
      [("filter", AValue (VMap [("reporter_id", VInt 7)]))] (Some (IList [])).
Proof.
  split.
  - apply (C8_required_filters empty_store "ArticleConnection" Article
             articles_info [("filter", AValue (VMap [("headline", VStr "X")]))]
             None (mkField (Some [mkRequired "reporter_id"]))
             [mkRequired "reporter_id"] ["headline"]);
      [reflexivity | reflexivity | reflexivity | vm_compute; discriminate].
  - apply (C8_required_filters empty_store "ArticleConnection" Article
             articles_info [("filter", AValue (VMap [("reporter_id", VInt 7)]))]
             (Some (IList [])) (mkField (Some [mkRequired "reporter_id"]))
             [mkRequired "reporter_id"] ["reporter_id"]);
      [reflexivity | reflexivity | reflexivity | vm_compute; reflexivity].
Defined.

Example missing_reporter_id :
  (list_to_set (List.map key [mkRequired "reporter_id"]) ∖ list_to_set ["headline"]
   : gset string) = {["reporter_id"]}.
Proof. vm_compute. reflexivity. Qed.

(** ** Which filters compile *)

Lemma known_operator_lambda model field operator v :
  existsb (String.eqb operator) operator_tags = true ->
  exists body,
    create_filter_clause model field (VMap [(operator, v)]) = Ok (Lambda body) /\
    (body = compare OpEq model field v \/ body = compare OpNe model field v \/
     body = compare OpLt model field v \/ body = compare OpGt model field v \/
     body = (col <- getattr model field ;; Ok (Atom (LowerLike col v))) \/
     body = (col <- getattr model field ;; Ok (Atom (InList col v)))).
Proof.
  unfold operator_tags. simpl.
  destruct (String.eqb operator "equal"); [eexists; split; [reflexivity | tauto]|].
  destruct (String.eqb operator "notEqual"); [eexists; split; [reflexivity | tauto]|].
  destruct (String.eqb operator "lessThan"); [eexists; split; [reflexivity | tauto]|].
  destruct (String.eqb operator "greaterThan"); [eexists; split; [reflexivity | tauto]|].
  destruct (String.eqb operator "like"); [eexists; split; [reflexivity | tauto]|].
  destruct (String.eqb operator "in"); [eexists; split; [reflexivity | tauto]|].
  discriminate.
Qed.

Lemma unknown_operator_tuple model field operator v :
  existsb (String.eqb operator) operator_tags = false ->
  create_filter_clause model field (VMap [(operator, v)]) = Ok EmptyTuple.
Proof.
  unfold operator_tags. simpl. intros H.
  repeat (apply orb_false_elim in H; destruct H as [-> H]). reflexivity.
Qed.

Lemma leaf_ok_compilable model k v c :
  (f <- create_filter_clause model k v ;; call f) = Ok c ->
  has_attr model k && leaf_value_ok v = true.
Proof.
  unfold has_attr. intros Hc.
  destruct v as [ | | | | | | |items]; simpl in Hc; try discriminate;
    try (unfold compare, getattr in Hc;
         destruct (existsb (String.eqb k) (model_attrs model));
         [reflexivity | discriminate]).
  destruct items as [|[op val] [|more rest]]; try discriminate.
  destruct (existsb (String.eqb op) operator_tags) eqn:Hop.
  - destruct (known_operator_lambda model k op val Hop) as [body [Hb Hcases]].
    simpl in Hc, Hb. rewrite Hb in Hc. simpl in Hc.
    unfold compare, getattr in Hcases.
    destruct (existsb (String.eqb k) (model_attrs model)).
    + simpl. exact Hop.
    + simpl in Hcases.
      destruct Hcases as [->|[->|[->|[->|[->| ->]]]]]; discriminate.
  - pose proof (unknown_operator_tuple model k op val Hop) as Ht.
    simpl in Hc, Ht. rewrite Ht in Hc. discriminate.
Qed.

Lemma where_value_ok_compilable model :
  forall v operator c,
    where_value model operator v = Ok c -> compilable model v = true.
Proof.
  fix IH 1.
  intros v operator c. destruct v as [ | | | | | | |items];
    try (simpl; discriminate).
  simpl. generalize (apply_operator operator []). revert c.
  induction items as [|[k v] rest IHitems]; intros c acc.
  - reflexivity.
  - destruct (String.eqb k "or" && isinstance_Mapping v).
    { destruct (where_value model Or v) as [sub|e] eqn:Hv; simpl; [|discriminate].
      intros H. apply andb_true_iff. split.
      - exact (IH v Or sub Hv).
      - exact (IHitems c _ H). }
    destruct (String.eqb k "and" && isinstance_Mapping v).
    { destruct (where_value model And v) as [sub|e] eqn:Hv; simpl; [|discriminate].
      intros H. apply andb_true_iff. split.
      - exact (IH v And sub Hv).
      - exact (IHitems c _ H). }
    destruct (f <- create_filter_clause model k v ;; call f) as [sub|e] eqn:Hleaf;
      simpl; [|discriminate].
    intros H. apply andb_true_iff. split.
    + exact (leaf_ok_compilable _ _ _ _ Hleaf).
    + exact (IHitems c _ H).
Qed.

(** X1: [where_clause] returns a predicate only for filters in which every
    key is [and] or [or] over a mapping that is itself such a filter, or
    names an attribute of the model with a value that is a [str], [int],
    [bool] or [UUID] scalar or a mapping with exactly one of the six
    operator tags.  For every other filter it raises, whatever the
    operator. *)
Theorem where_clause_ok_compilable model filter operator :
  (forall c,
     where_clause model filter operator = Ok c ->
     compilable model (VMap filter) = true) /\
  (compilable model (VMap filter) = false ->
   exists e, where_clause model filter operator = Err e).
Proof.
  assert (Hok : forall c,
            where_clause model filter operator = Ok c ->
            compilable model (VMap filter) = true).
  { intros c. apply where_value_ok_compilable. }
  split; [exact Hok|].
  intros Hno. destruct (where_clause model filter operator) as [c|e] eqn:Hc.
  - rewrite (Hok c eq_refl) in Hno. discriminate.
  - eauto.
Qed.

Lemma where_clause_ok_compilable_witness :
  compilable Article
    (VMap [("or", VMap [("headline", VMap [("like", VStr "Foo")]);
                        ("published", VBool true)]);
           ("id", VMap [("in", VList [VInt 1; VInt 2])])]) = true /\
  (exists e,
     where_clause Article
       [("or", VMap [("headline", VStr "X"); ("author", VStr "Jane")])] And
     = Err e).
Proof.
  split.
  - destruct (where_clause_ok_compilable Article
                [("or", VMap [("headline", VMap [("like", VStr "Foo")]);
                              ("published", VBool true)]);
                 ("id", VMap [("in", VList [VInt 1; VInt 2])])] And)
      as [Hok _].
    eapply Hok. reflexivity.
  - destruct (where_clause_ok_compilable Article
                [("or", VMap [("headline", VStr "X"); ("author", VStr "Jane")])]
                And) as [_ Hbad].
    apply Hbad. reflexivity.
Defined.

(** X2: the keys of a node are compiled in order and the first key that
    raises decides: its exception is the one [where_clause] raises, whatever
    the later keys are. *)
Theorem where_clause_first_error model pre k v post operator subs e :
  key_clauses model pre = Ok subs ->
  key_clause model k v = Err e ->
  where_clause model (pre ++ (k, v) :: post) operator = Err e.
Proof.
  intros Hpre Hk. rewrite where_clause_unfold.
  generalize (apply_operator operator []). revert subs Hpre.
  induction pre as [|[k0 v0] pre IH]; intros subs Hpre acc; simpl.
  - rewrite Hk. reflexivity.
  - simpl in Hpre.
    destruct (key_clause model k0 v0) as [s|e0]; simpl in *; [|discriminate].
    destruct (key_clauses model pre) as [ss|e0]; simpl in *; [|discriminate].
    apply (IH ss eq_refl).
Qed.

Lemma where_clause_first_error_witness :
  where_clause Article
    ([("id", VInt 1)] ++ ("headline", VFloat 1 0) :: [("reporter_id", VMap [])])
    Or
  = Err (NotImplementedError TFloat "headline" Article).
Proof.
  apply (where_clause_first_error Article [("id", VInt 1)] "headline"
           (VFloat 1 0) [("reporter_id", VMap [])] Or
           [Atom (Compare OpEq (Column "Article" "id") (VInt 1))]);
    reflexivity.
Defined.

(** X3: [filter_query] does to its query what [create_filter_clause] says:
    it raises the same exception, returns the query as it is when the
    operator tag is unknown, and otherwise adds the predicate the lambda
    returns as one criterion (or raises what the lambda raises). *)
Theorem filter_query_create_filter_clause query model field v :
  filter_query query model field v
  = match create_filter_clause model field v with
    | Err e => Err e
    | Ok EmptyTuple => Ok query
    | Ok (Lambda body) => c <- body ;; Ok (query_filter query c)
    end.
Proof.
  destruct v as [ | | | | | | |items]; try reflexivity.
  destruct items as [|[op val] [|more rest]]; try reflexivity.
  simpl.
  repeat match goal with
         | |- context [if String.eqb op ?s then _ else _] =>
             destruct (String.eqb op s);
             [destruct (getattr model field); reflexivity|]
         end.
  reflexivity.
Qed.

(** X4: a leaf on a name that is not an attribute of the model:
    [create_filter_clause] still returns a clause, the attribute is only
    looked up when the clause is called, so [where_clause] raises
    [AttributeError] for the name; [filter_query] raises it at once. *)
Theorem leaf_on_missing_attribute model field v rest operator query :
  has_attr model field = false ->
  field <> "or" -> field <> "and" ->
  leaf_value_ok v = true ->
  (exists f, create_filter_clause model field v = Ok f) /\
  where_clause model ((field, v) :: rest) operator = Err (AttributeError field) /\
  filter_query query model field v = Err (AttributeError field).
Proof.
  intros Hattr Hor Hand Hleaf. unfold has_attr in Hattr.
  assert (Hbody : exists body,
    create_filter_clause model field v = Ok (Lambda body) /\
    body = Err (AttributeError field)).
  { destruct v as [ | | | | | | |items]; simpl in Hleaf; try discriminate;
      try solve [eexists; split; [reflexivity|];
                 unfold compare, getattr; rewrite Hattr; reflexivity].
    destruct items as [|[op val] [|more rest']]; try discriminate.
    destruct (known_operator_lambda model field op val Hleaf) as [body [Hc Hb]].
    exists body. split; [exact Hc|].
    unfold compare, getattr in Hb. rewrite Hattr in Hb. simpl in Hb.
    destruct Hb as [->|[->|[->|[->|[->| ->]]]]]; reflexivity. }
  destruct Hbody as [body [Hc ->]].
  split; [eauto|]. split.
  - rewrite where_clause_unfold. cbn [where_loop].
    rewrite key_clause_field by assumption. rewrite Hc. reflexivity.
  - destruct v as [ | | | | | | |items]; simpl in Hleaf; try discriminate;
      try solve [simpl; unfold compare, getattr; rewrite Hattr; reflexivity].
    destruct items as [|[op val] [|more rest']]; try discriminate.
    unfold operator_tags in Hleaf. simpl in Hleaf. simpl.
    unfold compare, getattr. rewrite Hattr.
    repeat match goal with
           | |- context [if String.eqb op ?s then _ else _] =>
               destruct (String.eqb op s); [reflexivity|]
           end.
    discriminate.
Qed.

Lemma leaf_on_missing_attribute_witness :
  (exists f, create_filter_clause Article "author" (VMap [("like", VStr "J")]) = Ok f) /\
  where_clause Article [("author", VMap [("like", VStr "J")]); ("id", VInt 1)] And
  = Err (AttributeError "author") /\
  filter_query (mkQuery Article "session" [] []) Article "author"
    (VMap [("like", VStr "J")])
  = Err (AttributeError "author").
Proof.
  apply (leaf_on_missing_attribute Article "author" (VMap [("like", VStr "J")])
           [("id", VInt 1)] And (mkQuery Article "session" [] []));
    [reflexivity | discriminate | discriminate | reflexivity].
Defined.

(** X5: a node wrapped in an [and] key, alone in its node, is the node
    compiled with AND, and wrapped in an [or] key it is the node compiled
    with OR, on every row and whatever operator the enclosing node is
    compiled with. *)
Theorem single_combinator_key model node operator compiled :
  (where_clause model [("and", VMap node)] operator = Ok compiled ->
   exists inner,
     where_clause model node And = Ok inner /\
     forall (Row : Type) (holds : Row -> atom -> bool) (row : Row),
       eval holds row compiled = eval holds row inner) /\
  (where_clause model [("or", VMap node)] operator = Ok compiled ->
   exists inner,
     where_clause model node Or = Ok inner /\
     forall (Row : Type) (holds : Row -> atom -> bool) (row : Row),
       eval holds row compiled = eval holds row inner).
Proof.
  assert (Hand : key_clause model "and" (VMap node) = where_clause model node And)
    by reflexivity.
  assert (Hor : key_clause model "or" (VMap node) = where_clause model node Or)
    by reflexivity.
  split; intros Hc;
    destruct (where_clause_eval _ _ _ _ Hc) as [subs [Hsubs Heval]];
    cbn [key_clauses] in Hsubs.
  - rewrite Hand in Hsubs.
    destruct (where_clause model node And) as [inner|e]; [|discriminate].
    cbn [bind] in Hsubs. inversion Hsubs; subst.
    exists inner. split; [reflexivity|].
    intros Row holds row. rewrite Heval. cbn [List.map join foldr].
    apply merge_None_r.
  - rewrite Hor in Hsubs.
    destruct (where_clause model node Or) as [inner|e]; [|discriminate].
    cbn [bind] in Hsubs. inversion Hsubs; subst.
    exists inner. split; [reflexivity|].
    intros Row holds row. rewrite Heval. cbn [List.map join foldr].
    apply merge_None_r.
Qed.

Lemma single_combinator_key_witness :
  (exists inner,
     where_clause Article [("id", VInt 1); ("headline", VStr "X")] And = Ok inner /\
     forall (Row : Type) (holds : Row -> atom -> bool) (row : Row),
       eval holds row
         (Grouping (or_ [or_ [];
            Grouping (and_ [and_ [and_ [];
              Atom (Compare OpEq (Column "Article" "id") (VInt 1))];
              Atom (Compare OpEq (Column "Article" "headline") (VStr "X"))])]))
       = eval holds row inner).
Proof.
  destruct (single_combinator_key Article [("id", VInt 1); ("headline", VStr "X")]
              Or
              (Grouping (or_ [or_ [];
                 Grouping (and_ [and_ [and_ [];
                   Atom (Compare OpEq (Column "Article" "id") (VInt 1))];
                   Atom (Compare OpEq (Column "Article" "headline") (VStr "X"))])])))
    as [Hand _].
  apply Hand. reflexivity.
Defined.

Lemma self_group_pair operator x y :
  self_group (apply_operator operator [x; y])
  = Grouping (apply_operator operator [x; y]).
Proof. destruct operator; reflexivity. Qed.

(** X6: what [where_clause] returns.  For an empty node it is the empty
    clause list of its operator, which selects every row.  For a node with
    a last key it is the grouping of a clause list of the operator of the
    node with two elements: the first is what the keys before the last
    have accumulated (the node made of these keys compiles to it,
    grouped), the second is the clause of the last key. *)
Theorem where_clause_shape model operator :
  where_clause model [] operator = Ok (apply_operator operator []) /\
  (forall (Row : Type) (holds : Row -> atom -> bool) (row : Row),
     selects holds row (apply_operator operator []) = true) /\
  (forall pre k v compiled,
     where_clause model (pre ++ [(k, v)]) operator = Ok compiled ->
     exists acc last_clause,
       where_clause model pre operator = Ok (self_group acc) /\
       key_clause model k v = Ok last_clause /\
       where_clause model [(k, v)] operator
       = Ok (Grouping (apply_operator operator
                         [apply_operator operator []; last_clause])) /\
       compiled = Grouping (apply_operator operator [acc; last_clause])).
Proof.
  split; [destruct operator; reflexivity|].
  split; [intros Row holds row; destruct operator; reflexivity|].
  intros pre k v compiled Hc.
  destruct (where_clause_key_clauses _ _ _ _ Hc) as [subs Hsubs].
  rewrite (where_clause_of_key_clauses _ _ _ _ Hsubs) in Hc.
  rewrite key_clauses_app in Hsubs.
  destruct (key_clauses model pre) as [s1|e] eqn:Hs1; [|discriminate].
  cbn [bind key_clauses] in Hsubs.
  destruct (key_clause model k v) as [sub|e] eqn:Hk; [|discriminate].
  cbn [bind] in Hsubs. inversion Hsubs; subst subs; clear Hsubs.
  rewrite fold_left_app in Hc. cbn [fold_left] in Hc.
  rewrite self_group_pair in Hc. inversion Hc; subst compiled; clear Hc.
  eexists. exists sub.
  split; [apply (where_clause_of_key_clauses _ _ _ _ Hs1)|].
  split; [reflexivity|]. split; [|reflexivity].
  rewrite where_clause_unfold. cbn [where_loop]. rewrite Hk. cbn [bind].
  rewrite self_group_pair. reflexivity.
Qed.

Lemma where_clause_shape_witness :
  exists acc last_clause,
    where_clause Article [("id", VInt 1)] Or = Ok (self_group acc) /\
    key_clause Article "headline" (VStr "X") = Ok last_clause /\
    where_clause Article [("headline", VStr "X")] Or
    = Ok (Grouping (apply_operator Or [apply_operator Or []; last_clause])) /\
    Grouping (or_ [or_ [or_ [];
       Atom (Compare OpEq (Column "Article" "id") (VInt 1))];
       Atom (Compare OpEq (Column "Article" "headline") (VStr "X"))])
    = Grouping (apply_operator Or [acc; last_clause]).
Proof.
  destruct (where_clause_shape Article Or) as [_ [_ Hsnoc]].
  apply (Hsnoc [("id", VInt 1)] "headline" (VStr "X")).
  reflexivity.
Defined.

(** ** More on the query builders *)

(** X7: with a [where] mapping that is not empty, the query [get_query] of
    the filtered field returns is the base query with the compiled
    predicate, compiled with AND at the top, as one more criterion;
    entity, session and ordering are those of the base query. *)
Theorem filtered_get_query_where store model info filter sort kwargs query :
  filter <> [] ->
  SQLAlchemyFilteredConnectionField.get_query store model info
    (Some (VMap filter)) sort kwargs = Ok query ->
  exists clause,
    where_clause model filter And = Ok clause /\
    query = query_filter (session_query store model (context info)) clause /\
    criteria query
    = (criteria (session_query store model (context info)) ++ [Where clause])%list /\
    entity query = entity (session_query store model (context info)) /\
    session query = session (session_query store model (context info)) /\
    ordering query = ordering (session_query store model (context info)).
Proof.
  intros Hne.
  unfold SQLAlchemyFilteredConnectionField.get_query.
  destruct (SQLAlchemyFilteredConnectionField.related_filters _ _ _ _ _ _)
    as [q|e] eqn:Hrel; [|discriminate].
  apply related_filters_query in Hrel. subst q. cbn [bind].
  unfold UnsortedSQLAlchemyConnectionField.get_query.
  destruct filter as [|kv rest]; [contradiction|].
  cbn [truthy List.length Nat.eqb negb].
  fold (where_clause model (kv :: rest) And).
  destruct (where_clause model (kv :: rest) And) as [clause|e]; [|discriminate].
  cbn [bind]. intros H; inversion H; subst.
  exists clause. repeat split; reflexivity.
Qed.

Lemma filtered_get_query_where_witness :
  exists clause,
    where_clause Article [("id", VInt 1)] And = Ok clause /\
    mkQuery Article "session"
      [Where (Grouping (and_ [and_ [];
         Atom (Compare OpEq (Column "Article" "id") (VInt 1))]))] []
    = query_filter (session_query empty_store Article (context articles_info)) clause /\
    criteria (mkQuery Article "session"
      [Where (Grouping (and_ [and_ [];
         Atom (Compare OpEq (Column "Article" "id") (VInt 1))]))] [])
    = (criteria (session_query empty_store Article (context articles_info))
       ++ [Where clause])%list /\
    entity (mkQuery Article "session"
      [Where (Grouping (and_ [and_ [];
         Atom (Compare OpEq (Column "Article" "id") (VInt 1))]))] [])
    = entity (session_query empty_store Article (context articles_info)) /\
    session (mkQuery Article "session"
      [Where (Grouping (and_ [and_ [];
         Atom (Compare OpEq (Column "Article" "id") (VInt 1))]))] [])
    = session (session_query empty_store Article (context articles_info)) /\
    ordering (mkQuery Article "session"
      [Where (Grouping (and_ [and_ [];
         Atom (Compare OpEq (Column "Article" "id") (VInt 1))]))] [])
    = ordering (session_query empty_store Article (context articles_info)).
Proof.
  apply (filtered_get_query_where empty_store Article articles_info
           [("id", VInt 1)] None []).
  - discriminate.
  - reflexivity.
Defined.

(** X8: a [where] argument that is false as a condition ([None], an empty
    mapping, [0], an empty string) is not compiled: the filtered
    [get_query] returns what it returns without [where]. *)
Theorem filtered_get_query_falsy_where store model info w sort kwargs :
  truthy w = false ->
  SQLAlchemyFilteredConnectionField.get_query store model info (Some w) sort kwargs
  = SQLAlchemyFilteredConnectionField.get_query store model info None sort kwargs.
Proof.
  intros Hw. unfold SQLAlchemyFilteredConnectionField.get_query.
  rewrite Hw. reflexivity.
Qed.

Lemma filtered_get_query_falsy_where_witness :
  SQLAlchemyFilteredConnectionField.get_query empty_store Article articles_info
    (Some (VMap [])) None []
  = SQLAlchemyFilteredConnectionField.get_query empty_store Article articles_info
      None None [].
Proof.
  apply (filtered_get_query_falsy_where empty_store Article articles_info (VMap [])).
  reflexivity.
Defined.

Lemma related_filters_found store model info kwargs pre post query :
  (forall n i,
     In (n, AInput i) pre -> has_attr model n = true ->
     exists r,
       query_one store
         (query_filter_by (session_query store (sqla_model i) (context info))
            (input_items i)) = OneRow r) ->
  SQLAlchemyFilteredConnectionField.related_filters
    store model info kwargs (pre ++ post) query
  = SQLAlchemyFilteredConnectionField.related_filters
      store model info kwargs post query.
Proof.
  intros Hfound. induction pre as [|[k v] pre IH]; [reflexivity|].
  assert (Hrest : forall n i,
            In (n, AInput i) pre -> has_attr model n = true ->
            exists r,
              query_one store
                (query_filter_by (session_query store (sqla_model i) (context info))
                   (input_items i)) = OneRow r).
  { intros n i Hin. apply (Hfound n i). right. exact Hin. }
  cbn [app SQLAlchemyFilteredConnectionField.related_filters].
  unfold getattr_default, getattr.
  destruct (existsb (String.eqb k) (model_attrs model)) eqn:Hattr;
    [|exact (IH Hrest)].
  destruct v; try exact (IH Hrest).
  destruct (Hfound k i (or_introl eq_refl) Hattr) as [r Hr].
  unfold one, UnsortedSQLAlchemyConnectionField.get_query.
  rewrite Hr. cbn [bind]. exact (IH Hrest).
Qed.

(** X9: the keyword arguments are gone through in order.  For one that
    names an attribute of the model and holds a structured filter value,
    [get_query] runs [one()] on the query of the model of that value,
    filtered by the items of the value.  When this has found one row for
    every such keyword argument before, and finds no row or several rows
    for this one, [get_query] raises [NoResultFound] or
    [MultipleResultsFound], whatever comes after. *)
Theorem related_filter_needs_one_row store model info where_ sort pre name input rest :
  (forall n i,
     In (n, AInput i) pre -> has_attr model n = true ->
     exists r,
       query_one store
         (query_filter_by (session_query store (sqla_model i) (context info))
            (input_items i)) = OneRow r) ->
  has_attr model name = true ->
  (query_one store
     (query_filter_by (session_query store (sqla_model input) (context info))
        (input_items input)) = NoRow ->
   SQLAlchemyFilteredConnectionField.get_query store model info where_ sort
     (pre ++ (name, AInput input) :: rest) = Err NoResultFound) /\
  (query_one store
     (query_filter_by (session_query store (sqla_model input) (context info))
        (input_items input)) = ManyRows ->
   SQLAlchemyFilteredConnectionField.get_query store model info where_ sort
     (pre ++ (name, AInput input) :: rest) = Err MultipleResultsFound).
Proof.
  intros Hfound Hattr. unfold has_attr in Hattr.
  unfold SQLAlchemyFilteredConnectionField.get_query.
  rewrite (related_filters_found _ _ _ _ _ _ _ Hfound).
  cbn [SQLAlchemyFilteredConnectionField.related_filters].
  unfold getattr_default, getattr. rewrite Hattr.
  unfold UnsortedSQLAlchemyConnectionField.get_query, one.
  split; intros Hone; rewrite Hone; reflexivity.
Qed.

Lemma related_filter_needs_one_row_witness :
  SQLAlchemyFilteredConnectionField.get_query reporters_store Article articles_info
    None None
    ([("first", AValue (VInt 2));
      ("reporter", AInput (mkInput Reporter [("name", VStr "Jane")]))]
     ++ ("headline", AInput (mkInput Article [("id", VInt 1)]))
        :: [("reporter_id", AInput (mkInput Reporter []))])
  = Err NoResultFound.
Proof.
  destruct (related_filter_needs_one_row reporters_store Article articles_info
              None None
              [("first", AValue (VInt 2));
               ("reporter", AInput (mkInput Reporter [("name", VStr "Jane")]))]
              "headline" (mkInput Article [("id", VInt 1)])
              [("reporter_id", AInput (mkInput Reporter []))])
    as [Hnone _].
  - intros n i [H|[H|[]]] _; inversion H; subst. exists (VInt 7). reflexivity.
  - reflexivity.
  - apply Hnone. reflexivity.
Defined.

Lemma related_filters_skipped store model info kwargs items query :
  (forall name input, In (name, AInput input) items -> has_attr model name = false) ->
  SQLAlchemyFilteredConnectionField.related_filters
    store model info kwargs items query = Ok query.
Proof.
  intros Hskip. induction items as [|[k v] rest IH]; simpl; [reflexivity|].
  assert (Hrest : forall name input,
             In (name, AInput input) rest -> has_attr model name = false).
  { intros name input Hin. apply (Hskip name input). right. exact Hin. }
  unfold getattr_default, getattr.
  destruct (existsb (String.eqb k) (model_attrs model)) eqn:Hattr;
    [|exact (IH Hrest)].
  destruct v; try exact (IH Hrest).
  pose proof (Hskip k i (or_introl eq_refl)) as Hno. unfold has_attr in Hno.
  congruence.
Qed.

(** X10: when no keyword argument both names an attribute of the model and
    holds a structured filter value, the filtered [get_query] runs no
    query: it returns what it returns without keyword arguments, and the
    same for every store with the same base query. *)
Theorem filtered_get_query_plain_kwargs store model info where_ sort kwargs :
  (forall name input, In (name, AInput input) kwargs -> has_attr model name = false) ->
  SQLAlchemyFilteredConnectionField.get_query store model info where_ sort kwargs
  = SQLAlchemyFilteredConnectionField.get_query store model info where_ sort [] /\
  forall count all one_,
    SQLAlchemyFilteredConnectionField.get_query
      (mkStore (session_query store) count all one_) model info where_ sort kwargs
    = SQLAlchemyFilteredConnectionField.get_query store model info where_ sort kwargs.
Proof.
  intros Hskip. unfold SQLAlchemyFilteredConnectionField.get_query.
  split.
  - rewrite related_filters_skipped by exact Hskip. reflexivity.
  - intros count all one_.
    rewrite !related_filters_skipped by exact Hskip. reflexivity.
Qed.

Lemma filtered_get_query_plain_kwargs_witness :
  SQLAlchemyFilteredConnectionField.get_query empty_store Article articles_info
    None None [("first", AValue (VInt 2)); ("headline", AValue (VStr "X"))]
  = SQLAlchemyFilteredConnectionField.get_query empty_store Article articles_info
      None None [].
Proof.
  apply (filtered_get_query_plain_kwargs empty_store Article articles_info None None
           [("first", AValue (VInt 2)); ("headline", AValue (VStr "X"))]).
  intros name input [H|[H|[]]]; discriminate.
Defined.

(** ** More on pagination and resolution *)

Lemma py_slice_suffix {A : Type} (l : list A) (start : Z) :
  0 <= start <= Z.of_nat (List.length l) ->
  py_slice l start (Z.of_nat (List.length l)) = drop (Z.to_nat start) l.
Proof.
  intros [Hlo Hhi]. unfold py_slice, slice_index.
  destruct (start <? 0) eqn:Hs; [apply Z.ltb_lt in Hs; lia|].
  destruct (Z.of_nat (List.length l) <? 0) eqn:Hn; [apply Z.ltb_lt in Hn; lia|].
  replace (Z.min start (Z.of_nat (List.length l))) with start by lia.
  replace (Z.min (Z.of_nat (List.length l)) (Z.of_nat (List.length l)))
    with (Z.of_nat (List.length l)) by lia.
  apply take_ge. rewrite length_drop. lia.
Qed.

Lemma map_node_imap (f : nat -> cursor) (l : list value) :
  List.map node (imap (fun i nd => mkEdge nd (f i)) l) = l.
Proof.
  revert f. induction l as [|x l IH]; intros f; simpl; [reflexivity|].
  f_equal. apply (IH (fun i => f (S i))).
Qed.

(** X11: without pagination arguments, [resolve_connection] of the base
    field on a resolved list returns every element as an edge, in order,
    the edge at position [i] with the cursor of offset [i], and both page
    flags false. *)
Theorem resolve_connection_without_pagination cls_get_query store connection_type
  model info args (l : list value) :
  args_get args "first" = None ->
  args_get args "last" = None ->
  args_get args "after" = None ->
  args_get args "before" = None ->
  exists connection,
    UnsortedSQLAlchemyConnectionField.resolve_connection cls_get_query store
      connection_type model info args (Some (IList l)) = Ok connection /\
    Connection.edges connection
    = imap (fun i nd => mkEdge nd (offset_to_cursor (Z.of_nat i))) l /\
    List.map node (Connection.edges connection) = l /\
    has_next_page (Connection.page_info connection) = false /\
    has_previous_page (Connection.page_info connection) = false.
Proof.
  intros Hfirst Hlast Hafter Hbefore.
  rewrite resolve_connection_list.
  eexists. split; [reflexivity|].
  cbn [Connection.edges Connection.page_info].
  unfold connection_from_list_slice.
  rewrite Hfirst, Hlast, Hafter, Hbefore. simpl.
  set (N := Z.of_nat (List.length l)).
  replace (Z.max (Z.max (0 - 1) (-1)) (-1) + 1) with 0 by lia.
  replace (Z.max (0 - 0) 0) with 0 by lia.
  replace (N - (0 + N - Z.min (Z.min (0 + N) N) N)) with N by lia.
  unfold N. rewrite py_slice_suffix by lia. simpl.
  split; [reflexivity|]. split; [|split; reflexivity].
  apply map_node_imap.
Qed.

Lemma resolve_connection_without_pagination_witness :
  exists connection,
    UnsortedSQLAlchemyConnectionField.resolve_connection
      SQLAlchemyFilteredConnectionField.get_query_kw empty_store
      "ArticleConnection" Article articles_info [("sort", AValue VNone)]
      (Some (IList [VStr "a"; VStr "b"])) = Ok connection /\
    Connection.edges connection
    = imap (fun i nd => mkEdge nd (offset_to_cursor (Z.of_nat i)))
        [VStr "a"; VStr "b"] /\
    List.map node (Connection.edges connection) = [VStr "a"; VStr "b"] /\
    has_next_page (Connection.page_info connection) = false /\
    has_previous_page (Connection.page_info connection) = false.
Proof.
  apply (resolve_connection_without_pagination
           SQLAlchemyFilteredConnectionField.get_query_kw empty_store
           "ArticleConnection" Article articles_info [("sort", AValue VNone)]
           [VStr "a"; VStr "b"]); reflexivity.
Defined.

(** X12: with [last = k], [k] not negative, as the only pagination
    argument, [resolve_connection] of the base field on a resolved list of
    [N] elements returns the last [min k N] elements, the edge at position
    [i] with the cursor of offset [N - min k N + i]; [has_previous_page] is
    [k < N] and [has_next_page] is false. *)
Theorem resolve_connection_last_k cls_get_query store connection_type model
  info args (l : list value) (k : Z) :
  args_get args "last" = Some (AValue (VInt k)) ->
  0 <= k ->
  args_get args "first" = None ->
  args_get args "after" = None ->
  args_get args "before" = None ->
  exists connection,
    UnsortedSQLAlchemyConnectionField.resolve_connection cls_get_query store
      connection_type model info args (Some (IList l)) = Ok connection /\
    Connection.edges connection
    = imap (fun i nd =>
              mkEdge nd
                (offset_to_cursor
                   (Z.of_nat (List.length l) - Z.min k (Z.of_nat (List.length l))
                    + Z.of_nat i)))
        (drop (Z.to_nat (Z.of_nat (List.length l)
                         - Z.min k (Z.of_nat (List.length l)))) l) /\
    List.length (Connection.edges connection)
    = Z.to_nat (Z.min k (Z.of_nat (List.length l))) /\
    has_previous_page (Connection.page_info connection)
    = (k <? Z.of_nat (List.length l)) /\
    has_next_page (Connection.page_info connection) = false.
Proof.
  intros Hlast Hk Hfirst Hafter Hbefore.
  rewrite resolve_connection_list.
  eexists. split; [reflexivity|].
  cbn [Connection.edges Connection.page_info].
  unfold connection_from_list_slice.
  rewrite Hfirst, Hlast, Hafter, Hbefore. simpl.
  set (N := Z.of_nat (List.length l)).
  assert (HN : 0 <= N) by (unfold N; lia).
  replace (Z.max (Z.max (Z.max (0 - 1) (-1)) (-1) + 1)
             (Z.min (Z.min (0 + N) N) N - k))
    with (N - Z.min k N) by lia.
  replace (Z.max (N - Z.min k N - 0) 0) with (N - Z.min k N) by lia.
  replace (N - (0 + N - Z.min (Z.min (0 + N) N) N)) with N by lia.
  subst N. rewrite py_slice_suffix by lia. simpl.
  split; [reflexivity|]. split; [|split; [|reflexivity]].
  - rewrite length_imap, length_drop. lia.
  - destruct (Z.ltb_spec 0 (Z.of_nat (List.length l)
                            - Z.min k (Z.of_nat (List.length l)))),
      (Z.ltb_spec k (Z.of_nat (List.length l))); try reflexivity; lia.
Qed.

Lemma resolve_connection_last_k_witness :
  exists connection,
    UnsortedSQLAlchemyConnectionField.resolve_connection
      UnsortedSQLAlchemyConnectionField.get_query_kw empty_store
      "ArticleConnection" Article articles_info [("last", AValue (VInt 2))]
      (Some (IList [VStr "a"; VStr "b"; VStr "c"])) = Ok connection /\
    Connection.edges connection
    = [mkEdge (VStr "b") (OffsetCursor 1); mkEdge (VStr "c") (OffsetCursor 2)] /\
    has_previous_page (Connection.page_info connection) = true /\
    has_next_page (Connection.page_info connection) = false.
Proof.
  destruct (resolve_connection_last_k
              UnsortedSQLAlchemyConnectionField.get_query_kw empty_store
              "ArticleConnection" Article articles_info
              [("last", AValue (VInt 2))] [VStr "a"; VStr "b"; VStr "c"] 2)
    as [connection [Hc [He [_ [Hp Hn]]]]];
    [reflexivity | lia | reflexivity | reflexivity | reflexivity |].
  exists connection. split; [exact Hc|]. split; [exact He|].
  split; [exact Hp | exact Hn].
Defined.

(** ** More on required filters *)

(** X13: when the field of the schema is [None], has no [required]
    attribute or has an empty one, [resolve_connection] of the filtered
    field is the pagination of the base field with the query builder of the
    filtered field, whatever the arguments are. *)
Theorem resolve_connection_nothing_required store connection_type model info args
  resolved field :
  schema_getattr (schema_query info) (snake_field_name info) = Ok field ->
  field = None \/ (exists f, field = Some f /\
                             (required f = None \/ required f = Some [])) ->
  SQLAlchemyFilteredConnectionField.resolve_connection
    store connection_type model info args resolved
  = UnsortedSQLAlchemyConnectionField.resolve_connection
      SQLAlchemyFilteredConnectionField.get_query_kw
      store connection_type model info args resolved.
Proof.
  intros Hfield Hnone.
  unfold SQLAlchemyFilteredConnectionField.resolve_connection.
  rewrite Hfield. cbn [bind].
  destruct Hnone as [->|[f [-> [Hr|Hr]]]]; try rewrite Hr; reflexivity.
Qed.

Lemma resolve_connection_nothing_required_witness :
  SQLAlchemyFilteredConnectionField.resolve_connection empty_store
    "ArticleConnection" Article
    (mkInfo "session" "articles" [("articles", Some (mkField None))])
    [] (Some (IList []))
  = UnsortedSQLAlchemyConnectionField.resolve_connection
      SQLAlchemyFilteredConnectionField.get_query_kw empty_store
      "ArticleConnection" Article
      (mkInfo "session" "articles" [("articles", Some (mkField None))])
      [] (Some (IList [])).
Proof.
  apply (resolve_connection_nothing_required empty_store "ArticleConnection"
           Article (mkInfo "session" "articles" [("articles", Some (mkField None))])
           [] (Some (IList [])) (Some (mkField None))).
  - reflexivity.
  - right. exists (mkField None). split; [reflexivity | left; reflexivity].
Defined.

(** X14: the required keys are looked for in the argument named [filter]
    only.  When the call has no such argument and the field declares
    required filters, [resolve_connection] raises with all the declared
    keys as missing, whatever the other arguments, [where] included, hold. *)
Theorem required_filters_read_filter_only store connection_type model info args
  resolved field rf rfs :
  schema_getattr (schema_query info) (snake_field_name info) = Ok (Some field) ->
  required field = Some (rf :: rfs) ->
  args_get args "filter" = None ->
  SQLAlchemyFilteredConnectionField.resolve_connection
    store connection_type model info args resolved
  = Err (MissingFilters (list_to_set (List.map key (rf :: rfs)))).
Proof.
  intros Hfield Hreq Hfilter.
  unfold SQLAlchemyFilteredConnectionField.resolve_connection.
  rewrite Hfield. cbn [bind]. rewrite Hreq, Hfilter. cbn [filter_keys bind].
  assert (Hset : list_to_set (List.map key (rf :: rfs)) ∖ list_to_set []
                 = (list_to_set (List.map key (rf :: rfs)) : gset string)).
  { apply set_eq. intros x. rewrite elem_of_difference.
    split; [intros [H _]; exact H | intros H; split; [exact H|]].
    apply not_elem_of_empty. }
  rewrite Hset.
  destruct (decide _) as [Hempty|_]; [|reflexivity].
  exfalso.
  assert (Hin : key rf ∈ (list_to_set (List.map key (rf :: rfs)) : gset string)).
  { apply elem_of_list_to_set. simpl. left. }
  rewrite Hempty in Hin. exact (not_elem_of_empty _ Hin).
Qed.

Lemma required_filters_read_filter_only_witness :
  SQLAlchemyFilteredConnectionField.resolve_connection empty_store
    "ArticleConnection" Article articles_info
    [("where", AValue (VMap [("reporter_id", VInt 7)]))] (Some (IList []))
  = Err (MissingFilters (list_to_set (List.map key [mkRequired "reporter_id"]))).
Proof.
  apply (required_filters_read_filter_only empty_store "ArticleConnection" Article
           articles_info [("where", AValue (VMap [("reporter_id", VInt 7)]))]
           (Some (IList [])) (mkField (Some [mkRequired "reporter_id"]))
           (mkRequired "reporter_id") []); reflexivity.
Defined.

Lemma schema_getattr_missing attrs name :
  (forall k f, In (k, f) attrs -> k <> name) ->
  schema_getattr attrs name = Err (AttributeError name).
Proof.
  induction attrs as [|[k f] rest IH]; intros Hno; simpl; [reflexivity|].
  destruct (String.eqb_spec k name) as [Heq|_].
  - exfalso. apply (Hno k f); [left; reflexivity | exact Heq].
  - apply IH. intros k' f' Hin. apply (Hno k' f'). right. exact Hin.
Qed.

(** X15: when the query type of the schema has no attribute of the
    snake-cased name of the field, [resolve_connection] of the filtered
    field raises [AttributeError] for that name, also when the collection
    is resolved already and whatever the arguments are. *)
Theorem resolve_connection_unknown_field store connection_type model info args
  resolved :
  (forall k f, In (k, f) (schema_query info) -> k <> snake_field_name info) ->
  SQLAlchemyFilteredConnectionField.resolve_connection
    store connection_type model info args resolved
  = Err (AttributeError (snake_field_name info)).
Proof.
  intros Hno. unfold SQLAlchemyFilteredConnectionField.resolve_connection.
  rewrite (schema_getattr_missing _ _ Hno). reflexivity.
Qed.

Lemma resolve_connection_unknown_field_witness :
  SQLAlchemyFilteredConnectionField.resolve_connection empty_store
    "ArticleConnection" Article
    (mkInfo "session" "all_articles" [("articles", Some (mkField None))])
    [] (Some (IList [VInt 1]))
  = Err (AttributeError "all_articles").
Proof.
  apply (resolve_connection_unknown_field empty_store "ArticleConnection" Article
           (mkInfo "session" "all_articles" [("articles", Some (mkField None))])
           [] (Some (IList [VInt 1]))).
  intros k f [H|[]]. inversion H. discriminate.
Defined.

(** X16: how exceptions leave [connection_resolver]: an exception of the
    parent resolver is raised as it is; an exception of
    [resolve_connection] is raised when the resolver returned a plain
    value, and is held by the promise that is returned when the resolver
    returned a thenable. *)
Theorem connection_resolver_exceptions cls_resolve_connection store resolver
  connection_type model root info args :
  (forall e,
     resolver root info args = Err e ->
     UnsortedSQLAlchemyConnectionField.connection_resolver cls_resolve_connection
       store resolver connection_type model root info args = Err e) /\
  (forall resolved e,
     resolver root info args = Ok (Plain resolved) ->
     cls_resolve_connection store connection_type model info args resolved = Err e ->
     UnsortedSQLAlchemyConnectionField.connection_resolver cls_resolve_connection
       store resolver connection_type model root info args = Err e) /\
  (forall resolved e,
     resolver root info args = Ok (Thenable resolved) ->
     cls_resolve_connection store connection_type model info args resolved = Err e ->
     UnsortedSQLAlchemyConnectionField.connection_resolver cls_resolve_connection
       store resolver connection_type model root info args = Ok (Promise (Err e))).
Proof.
  unfold UnsortedSQLAlchemyConnectionField.connection_resolver.
  split; [|split].
  - intros e Hr. rewrite Hr. reflexivity.
  - intros resolved e Hr Hc. rewrite Hr. cbn [bind]. rewrite Hc. reflexivity.
  - intros resolved e Hr Hc. rewrite Hr. cbn [bind]. rewrite Hc. reflexivity.
Qed.

Lemma connection_resolver_exceptions_witness :
  UnsortedSQLAlchemyConnectionField.connection_resolver
    SQLAlchemyFilteredConnectionField.resolve_connection empty_store
    (fun _ _ _ => Ok (Thenable (Some (IList []))))
    "ArticleConnection" Article VNone articles_info []
  = Ok (Promise (Err (MissingFilters
                        (list_to_set (List.map key [mkRequired "reporter_id"])))))
  /\
  UnsortedSQLAlchemyConnectionField.connection_resolver
    SQLAlchemyFilteredConnectionField.resolve_connection empty_store
    (fun _ _ _ => Ok (Plain (Some (IList []))))
    "ArticleConnection" Article VNone articles_info []
  = Err (MissingFilters (list_to_set (List.map key [mkRequired "reporter_id"]))) /\
  UnsortedSQLAlchemyConnectionField.connection_resolver
    SQLAlchemyFilteredConnectionField.resolve_connection empty_store
    (fun _ _ _ => Err ValueError)
    "ArticleConnection" Article VNone articles_info []
  = Err ValueError.
Proof.
  assert (Hmissing :
    SQLAlchemyFilteredConnectionField.resolve_connection empty_store
      "ArticleConnection" Article articles_info [] (Some (IList []))
    = Err (MissingFilters (list_to_set (List.map key [mkRequired "reporter_id"])))).
  { vm_compute. reflexivity. }
  split; [|split].
  - destruct (connection_resolver_exceptions
                SQLAlchemyFilteredConnectionField.resolve_connection empty_store
                (fun _ _ _ => Ok (Thenable (Some (IList []))))
                "ArticleConnection" Article VNone articles_info [])
      as [_ [_ Hthen]].
    apply (Hthen (Some (IList []))); [reflexivity | exact Hmissing].
  - destruct (connection_resolver_exceptions
                SQLAlchemyFilteredConnectionField.resolve_connection empty_store
                (fun _ _ _ => Ok (Plain (Some (IList []))))
                "ArticleConnection" Article VNone articles_info [])
      as [_ [Hplain _]].
    apply (Hplain (Some (IList []))); [reflexivity | exact Hmissing].
  - destruct (connection_resolver_exceptions
                SQLAlchemyFilteredConnectionField.resolve_connection empty_store
                (fun _ _ _ => Err ValueError)
                "ArticleConnection" Article VNone articles_info [])
      as [Hraise _].
    apply Hraise. reflexivity.
Defined.

(** ** The constructor of the sorted connection field *)

(** X17: with a [sort] keyword given, the constructor never asks the type
    for a sort argument, so it cannot fail on it: [sort=None] is taken out
    of the keywords, any other value stays, and every other keyword is
    handed on as it is. *)
Theorem init_explicit_sort type kwargs v :
  kwargs !! "sort" = Some v ->
  exists kwargs',
    SQLAlchemyConnectionField.init type kwargs = inr kwargs' /\
    kwargs' !! "sort" = match v with KwNone => None | _ => Some v end /\
    forall k, k <> "sort" -> kwargs' !! k = kwargs !! k.
Proof.
  intros Hsort. unfold SQLAlchemyConnectionField.init. rewrite Hsort.
  destruct v as [|d].
  - eexists. split; [reflexivity|]. split.
    + apply lookup_delete_eq.
    + intros k Hk. apply lookup_delete_ne. congruence.
  - eexists. split; [reflexivity|]. split; [exact Hsort | reflexivity].
Qed.

Lemma init_explicit_sort_witness :
  exists kwargs',
    SQLAlchemyConnectionField.init
      (mkFieldType "Plain" true (Err (AttributeError "sort_argument")))
      (<["sort" := KwNone]> (<["description" := KwObject "articles"]> ∅))
    = inr kwargs' /\
    kwargs' !! "sort" = None /\
    forall k, k <> "sort" ->
      kwargs' !! k
      = (<["sort" := KwNone]> (<["description" := KwObject "articles"]> ∅)
         : gmap string kwarg) !! k.
Proof.
  apply (init_explicit_sort
           (mkFieldType "Plain" true (Err (AttributeError "sort_argument")))
           (<["sort" := KwNone]> (<["description" := KwObject "articles"]> ∅))
           KwNone).
  apply lookup_insert_eq.
Defined.

(** X18: without a [sort] keyword and with a type that is a connection, the
    constructor asks the type for its sort argument.  What it gets becomes
    the [sort] keyword, the other keywords unchanged; an [AttributeError]
    or [TypeError] raised there becomes the [TypeError] that names the
    type, any other exception is raised as it is.  With a type that is not
    a connection the keywords are handed on unchanged. *)
Theorem init_derived_sort type kwargs :
  kwargs !! "sort" = None ->
  (is_connection type = false ->
   SQLAlchemyConnectionField.init type kwargs = inr kwargs) /\
  (is_connection type = true ->
   (forall sort,
      sort_argument type = Ok sort ->
      exists kwargs',
        SQLAlchemyConnectionField.init type kwargs = inr kwargs' /\
        kwargs' !! "sort" = Some sort /\
        forall k, k <> "sort" -> kwargs' !! k = kwargs !! k) /\
   (forall e,
      sort_argument type = Err e ->
      SQLAlchemyConnectionField.init type kwargs
      = inl (match e with
             | AttributeError _ | TypeError => CannotCreateSort (type_name type)
             | _ => Raised e
             end))).
Proof.
  intros Hsort. unfold SQLAlchemyConnectionField.init. rewrite Hsort.
  split; [intros ->; reflexivity|].
  intros ->. split.
  - intros sort ->. eexists. split; [reflexivity|]. split.
    + apply lookup_insert_eq.
    + intros k Hk. apply lookup_insert_ne. congruence.
  - intros e ->. destruct e; reflexivity.
Qed.

Lemma init_derived_sort_witness :
  SQLAlchemyConnectionField.init
    (mkFieldType "PlainConnection" true (Err (AttributeError "sort_argument")))
    (<["description" := KwObject "articles"]> ∅)
  = inl (CannotCreateSort "PlainConnection") /\
  SQLAlchemyConnectionField.init
    (mkFieldType "Plain" false (Err (AttributeError "sort_argument")))
    (<["description" := KwObject "articles"]> ∅)
  = inr (<["description" := KwObject "articles"]> ∅).
Proof.
  split.
  - destruct (init_derived_sort
                (mkFieldType "PlainConnection" true
                   (Err (AttributeError "sort_argument")))
                (<["description" := KwObject "articles"]> ∅))
      as [_ Hconn].
    + rewrite lookup_insert_ne by discriminate. apply lookup_empty.
    + destruct (Hconn eq_refl) as [_ Herr].
      apply (Herr (AttributeError "sort_argument")). reflexivity.
  - destruct (init_derived_sort
                (mkFieldType "Plain" false (Err (AttributeError "sort_argument")))
                (<["description" := KwObject "articles"]> ∅))
      as [Hplain _].
    + rewrite lookup_insert_ne by discriminate. apply lookup_empty.
    + apply Hplain. reflexivity.
Defined.

(** ** The filter argument of the schema *)

Lemma od_get_set_eq {V : Type} (d : list (string * V)) k v :
  od_get (od_set d k v) k = Some v.
Proof.
  induction d as [|[k' v'] rest IH]; simpl.
  - rewrite String.eqb_refl. reflexivity.
  - destruct (String.eqb k' k) eqn:Hk; simpl; rewrite Hk; [reflexivity | exact IH].
Qed.

Lemma od_get_set_ne {V : Type} (d : list (string * V)) k k' v :
  k <> k' -> od_get (od_set d k v) k' = od_get d k'.
Proof.
  intros Hne. induction d as [|[k0 v0] rest IH]; simpl.
  - apply String.eqb_neq in Hne. rewrite Hne. reflexivity.
  - destruct (String.eqb k0 k) eqn:Hk; simpl.
    + apply String.eqb_eq in Hk. subst k0.
      apply String.eqb_neq in Hne. rewrite Hne. reflexivity.
    + destruct (String.eqb k0 k'); [reflexivity | exact IH].
Qed.

Lemma od_set_keys {V : Type} (d : list (string * V)) k v k' :
  In k' (List.map fst (od_set d k v)) <-> k' = k \/ In k' (List.map fst d).
Proof.
  induction d as [|[k0 v0] rest IH]; simpl.
  - intuition.
  - destruct (String.eqb k0 k) eqn:Hk; simpl.
    + apply String.eqb_eq in Hk. subst k0. intuition.
    + rewrite IH. intuition.
Qed.

Lemma od_set_NoDup {V : Type} (d : list (string * V)) k v :
  List.NoDup (List.map fst d) -> List.NoDup (List.map fst (od_set d k v)).
Proof.
  induction d as [|[k0 v0] rest IH]; simpl; intros Hnd.
  - constructor; [intros [] | constructor].
  - inversion Hnd as [|x l Hnot Hrest]; subst.
    destruct (String.eqb k0 k) eqn:Hk; simpl.
    + constructor; assumption.
    + constructor; [|apply IH; exact Hrest].
      rewrite od_set_keys. intros [Heq|Hin]; [|contradiction].
      subst k0. rewrite String.eqb_refl in Hk. discriminate.
Qed.

Lemma od_update_keys {V : Type} (pairs d : list (string * V)) k :
  In k (List.map fst (od_update d pairs))
  <-> In k (List.map fst d) \/ In k (List.map fst pairs).
Proof.
  unfold od_update. revert d.
  induction pairs as [|[k0 v0] rest IH]; intros d; simpl.
  - intuition.
  - rewrite IH, od_set_keys. simpl. intuition.
Qed.

Lemma od_update_NoDup {V : Type} (pairs d : list (string * V)) :
  List.NoDup (List.map fst d) -> List.NoDup (List.map fst (od_update d pairs)).
Proof.
  unfold od_update. revert d.
  induction pairs as [|[k0 v0] rest IH]; intros d Hnd; simpl; [exact Hnd|].
  apply IH, od_set_NoDup, Hnd.
Qed.

Lemma create_filter_field_some cache column :
  (exists class_str,
     column_class column = GOther class_str /\
     fst (create_filter_field cache column)
     = Some (FieldOfInput (class_str ++ "Filter")))
  \/ ((column_class column = GField \/ column_class column = GList) /\
      fst (create_filter_field cache column) = None).
Proof.
  unfold create_filter_field.
  destruct (column_class column) as [ | |class_str]; try (right; split; [tauto | reflexivity]).
  left. exists class_str. split; [reflexivity|].
  destruct (cache !! (class_str ++ "Filter")); reflexivity.
Qed.

Lemma create_filter_fields_pairs cache columns col field :
  In (col, field) (fst (create_filter_fields cache columns)) ->
  In col columns /\ exists c, field = fst (create_filter_field c col).
Proof.
  revert cache. induction columns as [|column rest IH]; intros cache; simpl.
  - intros [].
  - destruct (create_filter_field cache column) as [f cache1] eqn:Hf.
    destruct (create_filter_fields cache1 rest) as [pairs cache2] eqn:Hrest.
    simpl. intros [Heq|Hin].
    + inversion Heq; subst. split; [left; reflexivity|].
      exists cache. rewrite Hf. reflexivity.
    + pose proof (IH cache1) as IH1. rewrite Hrest in IH1.
      destruct (IH1 Hin) as [Hc Hex]. split; [right; exact Hc | exact Hex].
Qed.

Lemma create_filter_fields_all cache columns col :
  In col columns ->
  exists c, In (col, fst (create_filter_field c col))
              (fst (create_filter_fields cache columns)).
Proof.
  revert cache. induction columns as [|column rest IH]; intros cache; simpl.
  - intros [].
  - destruct (create_filter_field cache column) as [f cache1] eqn:Hf.
    pose proof (IH cache1) as IH1.
    destruct (create_filter_fields cache1 rest) as [pairs cache2] eqn:Hrest.
    simpl. intros [Heq|Hin].
    + subst column. exists cache. rewrite Hf. left. reflexivity.
    + destruct (IH1 Hin) as [c Hc]. exists c. right. exact Hc.
Qed.

Lemma kept_fields_keys pairs k :
  In k (List.map fst (kept_fields pairs))
  <-> exists col field,
        In (col, Some field) pairs /\ column_name col = k /\
        name_pattern_match k = true.
Proof.
  unfold kept_fields. induction pairs as [|[col f] rest IH]; simpl.
  - split; [intros [] | intros [col [field [[] _]]]].
  - destruct f as [field|]; simpl.
    + destruct (name_pattern_match (column_name col)) eqn:Hm; simpl.
      * rewrite IH. split.
        -- intros [Heq|[col' [field' [Hin [Hn Hp]]]]].
           ++ subst k. exists col, field. split; [left; reflexivity|]. split; [reflexivity | exact Hm].
           ++ exists col', field'. split; [right; exact Hin|]. split; assumption.
        -- intros [col' [field' [[Heq|Hin] [Hn Hp]]]].
           ++ inversion Heq; subst. left. reflexivity.
           ++ right. exists col', field'. split; [exact Hin|]. split; assumption.
      * rewrite IH. split.
        -- intros [col' [field' [Hin [Hn Hp]]]].
           exists col', field'. split; [right; exact Hin|]. split; assumption.
        -- intros [col' [field' [[Heq|Hin] [Hn Hp]]]].
           ++ inversion Heq; subst. congruence.
           ++ exists col', field'. split; [exact Hin|]. split; assumption.
    + rewrite IH. split.
      * intros [col' [field' [Hin [Hn Hp]]]].
        exists col', field'. split; [right; exact Hin|]. split; assumption.
      * intros [col' [field' [[Heq|Hin] [Hn Hp]]]].
        -- inversion Heq.
        -- exists col', field'. split; [exact Hin|]. split; assumption.
Qed.

(** X19: the fields of a filter argument that [create_filter_argument]
    builds (its name is not in the cache yet).  The class is stored in the
    cache under the name of the mapped class followed by [Filter]; its keys
    are distinct; [or] and [and] are among them and hold the argument
    itself, also when a column has one of these names; every other key is
    the name of a column that matches the name pattern and whose graphene
    type is neither a [Field] nor a [List], and every such column is a
    key. *)
Theorem filter_argument_fields caches cls :
  argument_cache caches !! (cls_name cls ++ "Filter") = None ->
  exists fields,
    fst (create_filter_argument caches cls) = ArgumentOf (cls_name cls ++ "Filter") /\
    argument_cache (snd (create_filter_argument caches cls))
      !! (cls_name cls ++ "Filter") = Some fields /\
    od_get fields "or" = Some (ArgumentOf (cls_name cls ++ "Filter")) /\
    od_get fields "and" = Some (ArgumentOf (cls_name cls ++ "Filter")) /\
    List.NoDup (List.map fst fields) /\
    forall k,
      In k (List.map fst fields) <->
      k = "or" \/ k = "and" \/
      (name_pattern_match k = true /\
       exists col,
         In col (cls_columns cls) /\ column_name col = k /\
         column_class col <> GField /\ column_class col <> GList).
Proof.
  intros Hfresh. unfold create_filter_argument. rewrite Hfresh.
  destruct (create_filter_fields (field_cache caches) (cls_columns cls))
    as [pairs cache'] eqn:Hpairs.
  eexists. split; [reflexivity|]. cbn [snd argument_cache].
  split; [apply lookup_insert_eq|].
  split; [|split; [|split]].
  - rewrite od_get_set_ne by discriminate. apply od_get_set_eq.
  - apply od_get_set_eq.
  - apply od_set_NoDup, od_set_NoDup, od_update_NoDup. constructor.
  - intros k. rewrite !od_set_keys, !od_update_keys, kept_fields_keys. simpl.
    assert (Hp : pairs = fst (create_filter_fields (field_cache caches) (cls_columns cls)))
      by (rewrite Hpairs; reflexivity).
    split.
    + intros H.
      assert (Hc : k = "and" \/ k = "or" \/
                   exists col field,
                     In (col, Some field) pairs /\ column_name col = k /\
                     name_pattern_match k = true) by tauto.
      clear H. destruct Hc as [->|[->|[col [field [Hin [Hn Hm]]]]]]; [tauto | tauto |].
      right. right. split; [exact Hm|].
      rewrite Hp in Hin.
      destruct (create_filter_fields_pairs _ _ _ _ Hin) as [Hcol [c Hc]].
      exists col. split; [exact Hcol|]. split; [exact Hn|].
      destruct (create_filter_field_some c col) as [[s [Hs _]]|[_ Hnone]].
      * rewrite Hs. split; discriminate.
      * rewrite Hnone in Hc. discriminate.
    + intros [->|[->|[Hm [col [Hcol [Hn [Hf Hl]]]]]]]; [tauto | tauto |].
      assert (Hex : exists col field,
                     In (col, Some field) pairs /\ column_name col = k /\
                     name_pattern_match k = true); [|tauto].
      destruct (create_filter_fields_all (field_cache caches) _ _ Hcol) as [c Hc].
      destruct (create_filter_field_some c col) as [[s [_ Hs]]|[[Hbad|Hbad] _]];
        [|contradiction|contradiction].
      rewrite Hs in Hc. rewrite <- Hp in Hc.
      exists col, (FieldOfInput (s ++ "Filter")).
      split; [exact Hc|]. split; [exact Hn | exact Hm].
Qed.

Lemma filter_argument_fields_witness :
  exists fields,
    fst (create_filter_argument (mkCaches ∅ ∅) ArticleClass)
    = ArgumentOf (cls_name ArticleClass ++ "Filter") /\
    argument_cache (snd (create_filter_argument (mkCaches ∅ ∅) ArticleClass))
      !! (cls_name ArticleClass ++ "Filter") = Some fields /\
    od_get fields "or" = Some (ArgumentOf (cls_name ArticleClass ++ "Filter")) /\
    od_get fields "and" = Some (ArgumentOf (cls_name ArticleClass ++ "Filter")) /\
    List.NoDup (List.map fst fields) /\
    forall k,
      In k (List.map fst fields) <->
      k = "or" \/ k = "and" \/
      (name_pattern_match k = true /\
       exists col,
         In col (cls_columns ArticleClass) /\ column_name col = k /\
         column_class col <> GField /\ column_class col <> GList).
Proof.
  apply (filter_argument_fields (mkCaches ∅ ∅) ArticleClass).
  apply lookup_empty.
Defined.

Example article_filter_fields :
  argument_cache (snd (create_filter_argument (mkCaches ∅ ∅) ArticleClass))
    !! "ArticleFilter"
  = Some [("id", FieldOfInput "IntFilter");
          ("headline", FieldOfInput "StringFilter");
          ("or", ArgumentOf "ArticleFilter");
          ("and", ArgumentOf "ArticleFilter")].
Proof. vm_compute. reflexivity. Qed.

(** X20: [create_filter_argument] is memoized on the name of the mapped
    class alone: after a call, a call for any class of the same name, with
    whatever columns, returns the same argument and leaves both caches as
    they are. *)
Theorem create_filter_argument_memoized caches cls cls' :
  cls_name cls' = cls_name cls ->
  create_filter_argument (snd (create_filter_argument caches cls)) cls'
  = (fst (create_filter_argument caches cls),
     snd (create_filter_argument caches cls)).
Proof.
  intros Hname.
  assert (Hhit : forall c,
            is_Some (argument_cache c !! (cls_name cls ++ "Filter")) ->
            create_filter_argument c cls' = (ArgumentOf (cls_name cls ++ "Filter"), c)).
  { intros c [fields Hc]. unfold create_filter_argument.
    rewrite Hname, Hc. reflexivity. }
  destruct (argument_cache caches !! (cls_name cls ++ "Filter")) as [fields|] eqn:Hc.
  - assert (H1 : create_filter_argument caches cls
                 = (ArgumentOf (cls_name cls ++ "Filter"), caches)).
    { unfold create_filter_argument. rewrite Hc. reflexivity. }
    rewrite H1. cbn [fst snd]. apply Hhit. rewrite Hc. eauto.
  - assert (H1 : exists c,
                 create_filter_argument caches cls
                 = (ArgumentOf (cls_name cls ++ "Filter"), c) /\
                 is_Some (argument_cache c !! (cls_name cls ++ "Filter"))).
    { unfold create_filter_argument. rewrite Hc.
      destruct (create_filter_fields (field_cache caches) (cls_columns cls))
        as [pairs cache'].
      eexists. split; [reflexivity|]. cbn [argument_cache].
      rewrite lookup_insert_eq. eauto. }
    destruct H1 as [c [H1 Hsome]]. rewrite H1. cbn [fst snd].
    apply Hhit, Hsome.
Qed.

Lemma create_filter_argument_memoized_witness :
  create_filter_argument
    (snd (create_filter_argument (mkCaches ∅ ∅) ArticleClass))
    (mkMapped "Article" [mkColumn "body" (GOther "String")])
  = (fst (create_filter_argument (mkCaches ∅ ∅) ArticleClass),
     snd (create_filter_argument (mkCaches ∅ ∅) ArticleClass)).
Proof.
  apply (create_filter_argument_memoized (mkCaches ∅ ∅) ArticleClass
           (mkMapped "Article" [mkColumn "body" (GOther "String")])).
  reflexivity.
Defined.

Lemma create_filter_field_cache_grows cache column n fields :
  cache !! n = Some fields ->
  snd (create_filter_field cache column) !! n = Some fields.
Proof.
  intros Hn. unfold create_filter_field.
  destruct (column_class column) as [ | |class_str]; try exact Hn.
  destruct (cache !! (class_str ++ "Filter")) eqn:Hc; [exact Hn|].
  cbn [snd]. rewrite lookup_insert_ne; [exact Hn|].
  intros Heq. rewrite Heq in Hc. congruence.
Qed.

Lemma create_filter_fields_cache_grows cache columns n fields :
  cache !! n = Some fields ->
  snd (create_filter_fields cache columns) !! n = Some fields.
Proof.
  revert cache. induction columns as [|column rest IH]; intros cache Hn; simpl.
  - exact Hn.
  - pose proof (create_filter_field_cache_grows cache column n fields Hn) as H1.
    destruct (create_filter_field cache column) as [f cache1].
    pose proof (IH cache1 H1) as H2.
    destruct (create_filter_fields cache1 rest) as [pairs cache2].
    exact H2.
Qed.

(** X21: the two caches only grow: a class that is in the argument cache or
    in the field cache before a call of [create_filter_argument] is there,
    unchanged, after it. *)
Theorem filter_caches_only_grow caches cls n fields :
  (argument_cache caches !! n = Some fields ->
   argument_cache (snd (create_filter_argument caches cls)) !! n = Some fields) /\
  (field_cache caches !! n = Some fields ->
   field_cache (snd (create_filter_argument caches cls)) !! n = Some fields).
Proof.
  unfold create_filter_argument.
  destruct (argument_cache caches !! (cls_name cls ++ "Filter")) eqn:Hc.
  - split; intros H; exact H.
  - pose proof (create_filter_fields_cache_grows (field_cache caches)
                  (cls_columns cls) n fields) as Hgrow.
    destruct (create_filter_fields (field_cache caches) (cls_columns cls))
      as [pairs cache'].
    cbn [snd argument_cache field_cache]. split.
    + intros Hn. rewrite lookup_insert_ne; [exact Hn|].
      intros Heq. rewrite Heq in Hc. congruence.
    + exact Hgrow.
Qed.

Lemma filter_caches_only_grow_witness :
  field_cache
    (snd (create_filter_argument
            (snd (create_filter_argument (mkCaches ∅ ∅) ArticleClass))
            (mkMapped "Reporter" [mkColumn "name" (GOther "String")])))
    !! "StringFilter"
  = Some [("equal", FieldOfClass (GOther "String"));
          ("notEqual", FieldOfClass (GOther "String"));
          ("lessThan", FieldOfClass (GOther "String"));
          ("greaterThan", FieldOfClass (GOther "String"));
          ("like", FieldOfClass (GOther "String"));
          ("in", FieldOfList (GOther "String"))].
Proof.
  destruct (filter_caches_only_grow
              (snd (create_filter_argument (mkCaches ∅ ∅) ArticleClass))
              (mkMapped "Reporter" [mkColumn "name" (GOther "String")])
              "StringFilter"
              [("equal", FieldOfClass (GOther "String"));
               ("notEqual", FieldOfClass (GOther "String"));
               ("lessThan", FieldOfClass (GOther "String"));
               ("greaterThan", FieldOfClass (GOther "String"));
               ("like", FieldOfClass (GOther "String"));
               ("in", FieldOfList (GOther "String"))]) as [_ Hfield].
  apply Hfield. vm_compute. reflexivity.
Defined.

(** X22: the operator tags of a filter field class that
    [create_filter_field] builds are exactly the six tags that
    [create_filter_clause] compiles: for each of them, on any model, field
    and value, it returns a lambda, never the empty tuple and never an
    exception. *)
Theorem filter_field_operators_compile cache column class_str :
  column_class column = GOther class_str ->
  cache !! (class_str ++ "Filter") = None ->
  exists fields,
    fst (create_filter_field cache column)
    = Some (FieldOfInput (class_str ++ "Filter")) /\
    snd (create_filter_field cache column) !! (class_str ++ "Filter")
    = Some fields /\
    List.map fst fields = operator_tags /\
    (forall operator,
       In operator (List.map fst fields) ->
       forall model field v,
       exists body,
         create_filter_clause model field (VMap [(operator, v)])
         = Ok (Lambda body)) /\
    (forall operator,
       ~ In operator (List.map fst fields) ->
       forall model field v,
         create_filter_clause model field (VMap [(operator, v)])
         = Ok EmptyTuple).
Proof.
  intros Hclass Hfresh. unfold create_filter_field.
  rewrite Hclass, Hfresh. cbn [fst snd].
  eexists. split; [reflexivity|]. split; [apply lookup_insert_eq|].
  split; [reflexivity|]. split.
  - intros operator Hin model field v.
    change (In operator operator_tags) in Hin.
    assert (Hex : existsb (String.eqb operator) operator_tags = true).
    { apply existsb_exists. exists operator. split; [exact Hin|].
      apply String.eqb_refl. }
    destruct (known_operator_lambda model field operator v Hex) as [body [Hb _]].
    exists body. exact Hb.
  - intros operator Hnot model field v.
    change (~ In operator operator_tags) in Hnot.
    apply unknown_operator_tuple.
    destruct (existsb (String.eqb operator) operator_tags) eqn:Hex; [|reflexivity].
    exfalso. apply Hnot.
    apply existsb_exists in Hex. destruct Hex as [x [Hin Heq]].
    apply String.eqb_eq in Heq. subst x. exact Hin.
Qed.

Lemma filter_field_operators_compile_witness :
  exists fields,
    fst (create_filter_field ∅ (mkColumn "headline" (GOther "String")))
    = Some (FieldOfInput ("String" ++ "Filter")) /\
    snd (create_filter_field ∅ (mkColumn "headline" (GOther "String")))
      !! ("String" ++ "Filter") = Some fields /\
    List.map fst fields = operator_tags /\
    (forall operator,
       In operator (List.map fst fields) ->
       forall model field v,
       exists body,
         create_filter_clause model field (VMap [(operator, v)])
         = Ok (Lambda body)) /\
    (forall operator,
       ~ In operator (List.map fst fields) ->
       forall model field v,
         create_filter_clause model field (VMap [(operator, v)])
         = Ok EmptyTuple).
Proof.
  apply (filter_field_operators_compile ∅ (mkColumn "headline" (GOther "String"))
           "String").
  - reflexivity.
  - apply lookup_empty.
Defined.

(** ** The registry *)

Lemma register_inr self obj_type self' :
  register self obj_type = inr self' ->
  self' = mkRegistry (registry_id self)
            (<[meta_model obj_type := obj_type]> (_registry self))
            (_registry_orm_fields self) /\
  is_class obj_type = true /\
  (is_object_type obj_type || is_interface obj_type) = true /\
  meta_registry obj_type = registry_id self /\
  (get_type_for_model self (meta_model obj_type) = None \/
   get_type_for_model self (meta_model obj_type) = Some obj_type).
Proof.
  unfold register.
  destruct (is_class obj_type); simpl; [|discriminate].
  destruct (is_object_type obj_type || is_interface obj_type); simpl; [|discriminate].
  destruct (Nat.eqb_spec (meta_registry obj_type) (registry_id self)) as [Hid|Hid];
    simpl; [|discriminate].
  destruct (get_type_for_model self (meta_model obj_type)) as [other|] eqn:Hget.
  - destruct (decide (other = obj_type)) as [->|Hne]; [|discriminate].
    intros H; inversion H. repeat split; auto.
  - intros H; inversion H. repeat split; auto.
Qed.

(** X23: after a successful [register], [get_type_for_model] gives the
    registered type for its model and what it gave before for every other
    model; the fields registered for the types are untouched. *)
Theorem register_then_get self obj_type self' :
  register self obj_type = inr self' ->
  get_type_for_model self' (meta_model obj_type) = Some obj_type /\
  (forall model,
     model <> meta_model obj_type ->
     get_type_for_model self' model = get_type_for_model self model) /\
  (forall t name,
     get_orm_field_for_graphene_field self' t name
     = get_orm_field_for_graphene_field self t name).
Proof.
  intros Hreg. destruct (register_inr _ _ _ Hreg) as [-> _].
  unfold get_type_for_model, get_orm_field_for_graphene_field. cbn.
  split; [apply lookup_insert_eq|]. split; [|reflexivity].
  intros model Hne. apply lookup_insert_ne. congruence.
Qed.

Lemma register_then_get_witness :
  get_type_for_model
    (mkRegistry 0 (<[meta_model ArticleType := ArticleType]> ∅) ∅)
    (meta_model ArticleType) = Some ArticleType.
Proof.
  destruct (register_then_get (new_registry 0) ArticleType
              (mkRegistry 0 (<[meta_model ArticleType := ArticleType]> ∅) ∅))
    as [Hget _].
  - reflexivity.
  - exact Hget.
Defined.

(** X24: a model keeps its type: whatever is registered with success
    afterwards, a model that had a type has the same type. *)
Theorem register_keeps_types self obj_type self' model t :
  get_type_for_model self model = Some t ->
  register self obj_type = inr self' ->
  get_type_for_model self' model = Some t.
Proof.
  intros Hget Hreg.
  destruct (register_inr _ _ _ Hreg) as [-> [_ [_ [_ Hfree]]]].
  unfold get_type_for_model in *. cbn.
  destruct (decide (meta_model obj_type = model)) as [Heq|Hne].
  - subst model. rewrite lookup_insert_eq.
    destruct Hfree as [Hnone|Hsame]; congruence.
  - rewrite lookup_insert_ne by exact Hne. exact Hget.
Qed.

Lemma register_keeps_types_witness :
  get_type_for_model
    (mkRegistry 0
       (<["Reporter" := mkType 3 true true false false "Reporter" 0]>
          (<["Article" := ArticleType]> ∅)) ∅)
    "Article" = Some ArticleType.
Proof.
  apply (register_keeps_types
           (mkRegistry 0 (<["Article" := ArticleType]> ∅) ∅)
           (mkType 3 true true false false "Reporter" 0)
           (mkRegistry 0
              (<["Reporter" := mkType 3 true true false false "Reporter" 0]>
                 (<["Article" := ArticleType]> ∅)) ∅)
           "Article" ArticleType).
  - apply lookup_insert_eq.
  - vm_compute. reflexivity.
Defined.

(** X25: registering the same type again succeeds and leaves the registry
    as it is; registering another object type or interface for a model
    that has a type fails with [AssertionError]. *)
Theorem register_again self obj_type self' other :
  register self obj_type = inr self' ->
  register self' obj_type = inr self' /\
  (other <> obj_type ->
   meta_model other = meta_model obj_type ->
   is_class other = true ->
   (is_object_type other || is_interface other) = true ->
   register self' other = inl AssertionError).
Proof.
  intros Hreg.
  destruct (register_inr _ _ _ Hreg) as [-> [Hclass [Hbase [Hid _]]]].
  split.
  - unfold register, get_type_for_model. cbn.
    rewrite Hclass, Hbase, Hid, Nat.eqb_refl. cbn.
    rewrite lookup_insert_eq.
    destruct (decide (obj_type = obj_type)) as [_|Hne]; [|contradiction].
    rewrite insert_insert_eq. reflexivity.
  - intros Hne Hmodel Hc Hb.
    unfold register, get_type_for_model. cbn.
    rewrite Hc, Hb. cbn.
    destruct (Nat.eqb (meta_registry other) (registry_id self)); cbn;
      [|reflexivity].
    rewrite Hmodel, lookup_insert_eq.
    destruct (decide (obj_type = other)) as [Heq|_]; [congruence | reflexivity].
Qed.

Lemma register_again_witness :
  register (mkRegistry 0 (<[meta_model ArticleType := ArticleType]> ∅) ∅) ArticleType
  = inr (mkRegistry 0 (<[meta_model ArticleType := ArticleType]> ∅) ∅) /\
  register (mkRegistry 0 (<[meta_model ArticleType := ArticleType]> ∅) ∅) ArticleNode
  = inl AssertionError.
Proof.
  destruct (register_again (new_registry 0) ArticleType
              (mkRegistry 0 (<[meta_model ArticleType := ArticleType]> ∅) ∅)
              ArticleNode) as [Hsame Hother].
  - reflexivity.
  - split; [exact Hsame|].
    apply Hother; [discriminate | reflexivity | reflexivity | reflexivity].
Defined.

(** X26: after a successful [register_orm_field], the field registered for
    the type and the name is the one just given (a later registration
    replaces an earlier one); the fields of every other type and name and
    the types of the models are as before. *)
Theorem register_orm_field_then_get self obj_type name orm_field assert_type self' :
  register_orm_field self obj_type (VStr name) orm_field assert_type = inr self' ->
  get_orm_field_for_graphene_field self' obj_type name = Some orm_field /\
  (forall t n,
     type_id t <> type_id obj_type \/ n <> name ->
     get_orm_field_for_graphene_field self' t n
     = get_orm_field_for_graphene_field self t n) /\
  (forall model, get_type_for_model self' model = get_type_for_model self model).
Proof.
  unfold register_orm_field.
  destruct (assert_type && _); [discriminate|].
  destruct (String.eqb name ""); [discriminate|].
  intros H; inversion H; subst; clear H.
  unfold get_orm_field_for_graphene_field, get_type_for_model. cbn.
  split; [|split; [|reflexivity]].
  - rewrite lookup_insert_eq. cbn. apply lookup_insert_eq.
  - intros t n [Ht|Hn].
    + rewrite lookup_insert_ne by congruence. reflexivity.
    + destruct (decide (type_id obj_type = type_id t)) as [Heq|Hne].
      * rewrite Heq, lookup_insert_eq. cbn.
        rewrite lookup_insert_ne by congruence. reflexivity.
      * rewrite lookup_insert_ne by exact Hne. reflexivity.
Qed.

Lemma register_orm_field_then_get_witness :
  get_orm_field_for_graphene_field
    (mkRegistry 0 ∅ (<[type_id ArticleType := <["headline" := "Article.headline"]> ∅]> ∅))
    ArticleType "headline" = Some "Article.headline".
Proof.
  destruct (register_orm_field_then_get (new_registry 0) ArticleType "headline"
              "Article.headline" true
              (mkRegistry 0 ∅
                 (<[type_id ArticleType := <["headline" := "Article.headline"]> ∅]> ∅)))
    as [Hget _].
  - reflexivity.
  - exact Hget.
Defined.

(** X27: [register_orm_field] raises [TypeError] for every field name that
    is not a string or is the empty string, whatever the type is and also
    with [assert_type] off.  With [assert_type] on and a name that is a
    string and not empty, it succeeds exactly for a class that is a
    subclass of [SQLAlchemyObjectType], [SQLAlchemyInterface] or
    [SQLAlchemyInputObjectType], and raises [TypeError] for anything
    else. *)
Theorem register_orm_field_name self obj_type field_name orm_field :
  (forall assert_type,
     (forall name, field_name = VStr name -> name = "") ->
     register_orm_field self obj_type field_name orm_field assert_type
     = inl RegistryTypeError) /\
  (forall name,
     field_name = VStr name -> name <> "" ->
     (is_class obj_type
      && (is_object_type obj_type || is_interface obj_type
          || is_input_object_type obj_type) = true ->
      exists self',
        register_orm_field self obj_type field_name orm_field true = inr self') /\
     (is_class obj_type
      && (is_object_type obj_type || is_interface obj_type
          || is_input_object_type obj_type) = false ->
      register_orm_field self obj_type field_name orm_field true
      = inl RegistryTypeError)).
Proof.
  unfold register_orm_field. split.
  - intros assert_type Hname. destruct (assert_type && _); [reflexivity|].
    destruct field_name; try reflexivity.
    rewrite (Hname s eq_refl). reflexivity.
  - intros name -> Hne. apply String.eqb_neq in Hne. cbn [andb].
    destruct (is_class obj_type); cbn [negb orb andb].
    + destruct (is_object_type obj_type || is_interface obj_type
                || is_input_object_type obj_type); cbn [negb].
      * split; [intros _; rewrite Hne; eauto | discriminate].
      * split; [discriminate | reflexivity].
    + split; [discriminate | reflexivity].
Qed.

Lemma register_orm_field_name_witness :
  register_orm_field (new_registry 0) ArticleType VNone "Article.id" false
  = inl RegistryTypeError /\
  (exists self',
     register_orm_field (new_registry 0)
       (mkType 4 true false false true "Article" 0) (VStr "id") "Article.id" true
     = inr self') /\
  register_orm_field (new_registry 0)
    (mkType 9 false false false false "" 0) (VStr "id") "Article.id" true
  = inl RegistryTypeError.
Proof.
  split; [|split].
  - destruct (register_orm_field_name (new_registry 0) ArticleType VNone
                "Article.id") as [Hbad _].
    apply Hbad. intros name H. discriminate.
  - destruct (register_orm_field_name (new_registry 0)
                (mkType 4 true false false true "Article" 0) (VStr "id")
                "Article.id") as [_ Hgood].
    destruct (Hgood "id" eq_refl) as [Hok _]; [discriminate|].
    apply Hok. reflexivity.
  - destruct (register_orm_field_name (new_registry 0)
                (mkType 9 false false false false "" 0) (VStr "id")
                "Article.id") as [_ Hgood].
    destruct (Hgood "id" eq_refl) as [_ Herr]; [discriminate|].
    apply Herr. reflexivity.
Defined.

(** X28: [get_global_registry] makes the registry once: a second call
    returns the same registry and changes nothing.  After
    [reset_global_registry] the next call returns a registry that knows no
    model and no field. *)
Theorem global_registry_lifecycle g :
  get_global_registry (snd (get_global_registry g))
  = (fst (get_global_registry g), snd (get_global_registry g)) /\
  (forall model,
     get_type_for_model
       (fst (get_global_registry (reset_global_registry g))) model = None) /\
  (forall t name,
     get_orm_field_for_graphene_field
       (fst (get_global_registry (reset_global_registry g))) t name = None).
Proof.
  unfold get_global_registry, reset_global_registry.
  split; [|split].
  - destruct (registry g) as [r|] eqn:Hr; cbn.
    + rewrite Hr. reflexivity.
    + reflexivity.
  - intros model. cbn. apply lookup_empty.
  - intros t name. cbn. unfold get_orm_field_for_graphene_field. cbn.
    rewrite lookup_empty. cbn. apply lookup_empty.
Qed.

(** ** The node interface *)

(** X29: [resolve_type] with a registry: an instance of a graphene object
    type resolves to that type; an instance of a model resolves to the type
    the registry has for the model, so to a type right after it was
    registered, and raises [ValueError] when the registry has none. *)
Theorem resolve_type_registered g meta self obj_type self' :
  register self obj_type = inr self' ->
  resolve_type g meta (InstanceOfModel (meta_model obj_type)) (Some self')
  = (Ok obj_type, g) /\
  (forall model,
     get_type_for_model self' model = None ->
     resolve_type g meta (InstanceOfModel model) (Some self')
     = (Err ValueError, g)) /\
  (forall t registry0,
     resolve_type g meta (InstanceOfObjectType t) registry0 = (Ok t, g)).
Proof.
  intros Hreg. destruct (register_inr _ _ _ Hreg) as [-> _].
  unfold resolve_type, get_type_for_model. cbn.
  split; [|split].
  - rewrite lookup_insert_eq. reflexivity.
  - intros model Hnone. unfold get_type_for_model in Hnone. cbn in Hnone.
    rewrite Hnone. reflexivity.
  - reflexivity.
Qed.

Lemma resolve_type_registered_witness :
  resolve_type (mkGlobals None 0) (Some None)
    (InstanceOfModel (meta_model ArticleType))
    (Some (mkRegistry 0 (<[meta_model ArticleType := ArticleType]> ∅) ∅))
  = (Ok ArticleType, mkGlobals None 0).
Proof.
  destruct (resolve_type_registered (mkGlobals None 0) (Some None)
              (new_registry 0) ArticleType
              (mkRegistry 0 (<[meta_model ArticleType := ArticleType]> ∅) ∅))
    as [Hres _].
  - reflexivity.
  - exact Hres.
Defined.

(** ** The connection field factory *)

(** X30: [default_connection_field_factory] calls the factory that is
    registered at the time of the call, with the type the registry has for
    the entity of the relationship ([None] when it has none) and the
    keywords as they are.  After [unregisterConnectionFieldFactory] that
    factory is [UnsortedSQLAlchemyConnectionField] again, whatever was
    registered; [createConnectionField] does not change it; each of the
    three deprecated functions issues one warning. *)
Theorem connection_factory_registration st factoryMethod entity registry0 kwargs t :
  default_connection_field_factory
    (registerConnectionFieldFactory st factoryMethod) entity registry0 kwargs
  = mkFactoryCall factoryMethod (get_type_for_model registry0 entity) kwargs /\
  default_connection_field_factory
    (unregisterConnectionFieldFactory
       (registerConnectionFieldFactory st factoryMethod)) entity registry0 kwargs
  = mkFactoryCall UnsortedFactory (get_type_for_model registry0 entity) kwargs /\
  connectionFactory (snd (createConnectionField st t kwargs)) = connectionFactory st /\
  List.length (warnings (snd (createConnectionField st t kwargs)))
  = S (List.length (warnings st)) /\
  List.length (warnings (registerConnectionFieldFactory st factoryMethod))
  = S (List.length (warnings st)) /\
  List.length (warnings (unregisterConnectionFieldFactory st))
  = S (List.length (warnings st)).
Proof.
  repeat split; cbn; rewrite ?length_app; cbn; lia.
Qed.
